(** * Cannes festival dashboard (app.py): data preparation and aggregation

    A shallow embedding of the derivation pipeline of [app.py]
    (load -> derive columns -> filter -> aggregate) and the properties of it
    that the specification states.

    Modelling conventions.
    - A text cell of the spreadsheet is an [option string]: [None] is the
      pandas missing value (what [pd.isna] recognises), [Some s] a Python
      [str].  Strings are ASCII text: the character classes below are those
      of Python on code points below 128; bytes from 128 on are taken as
      uncased symbols that are not white space.
    - A [DataFrame] is the list of its rows together with the presence of the
      optional columns.  A derived column is the function that computes its
      cell from the row.
    - pandas float results (means, percentages) are rationals; the rounding
      of a float operation is a parameter where a claim depends on it. *)

From Stdlib Require Import Ascii String QArith Qabs Lqa.
From stdpp Require Import base decidable list sorting gmap strings.

#[local] Set Warnings "-clear-no-such-hyp".

Local Open Scope string_scope.
Local Open Scope list_scope.

(** ** Python string primitives *)

Module PyStr.

(** [str.isspace] on one ASCII character: TAB..CR, FS..US and the space. *)
Definition is_space (c : ascii) : bool :=
  let n := nat_of_ascii c in
  ((9 <=? n) && (n <=? 13) || (28 <=? n) && (n <=? 32))%nat.

Definition is_upper (c : ascii) : bool :=
  let n := nat_of_ascii c in ((65 <=? n) && (n <=? 90))%nat.

Definition is_lower (c : ascii) : bool :=
  let n := nat_of_ascii c in ((97 <=? n) && (n <=? 122))%nat.

Definition is_cased (c : ascii) : bool := is_upper c || is_lower c.

Definition upper (c : ascii) : ascii :=
  if is_lower c then ascii_of_nat (nat_of_ascii c - 32) else c.

Definition lower (c : ascii) : ascii :=
  if is_upper c then ascii_of_nat (nat_of_ascii c + 32) else c.

Definition is_empty (s : string) : bool :=
  match s with EmptyString => true | String _ _ => false end.

(** [s.lstrip()] *)
Fixpoint lstrip (s : string) : string :=
  match s with
  | EmptyString => EmptyString
  | String c s' => if is_space c then lstrip s' else s
  end.

(** [s.rstrip()] *)
Fixpoint rstrip (s : string) : string :=
  match s with
  | EmptyString => EmptyString
  | String c s' =>
      let r := rstrip s' in
      if is_space c && is_empty r then EmptyString else String c r
  end.

(** [s.strip()] *)
Definition strip (s : string) : string := lstrip (rstrip s).

(** [s.split(',')]: one token more than there are commas, empty tokens
    kept; the empty string gives one empty token. *)
Fixpoint split_comma (s : string) : list string :=
  match s with
  | EmptyString => [EmptyString]
  | String c s' =>
      if Ascii.eqb c "," then EmptyString :: split_comma s'
      else match split_comma s' with
           | [] => [String c EmptyString]
           | t :: ts => String c t :: ts
           end
  end.

(** [s.title()]: a cased character is upper-cased when the character
    before it is not cased, lower-cased when it is. *)
Fixpoint title_from (prev_cased : bool) (s : string) : string :=
  match s with
  | EmptyString => EmptyString
  | String c s' =>
      if is_cased c
      then String (if prev_cased then lower c else upper c) (title_from true s')
      else String c (title_from false s')
  end.

Definition title (s : string) : string := title_from false s.

(** Truth value of a [str] in a condition. *)
Definition truthy (s : string) : bool := negb (is_empty s).

(** [s.startswith(p)] *)
Fixpoint startswith (s p : string) : bool :=
  match p with
  | EmptyString => true
  | String a p' =>
      match s with
      | EmptyString => false
      | String b s' => Ascii.eqb a b && startswith s' p'
      end
  end.

(** [x in s]: [x] occurs in [s] as a substring. *)
Fixpoint contains (s x : string) : bool :=
  startswith s x
  || match s with
     | EmptyString => false
     | String _ s' => contains s' x
     end.

End PyStr.

(** ** Helper functions of app.py *)

(** A text cell: [None] is NaN / None. *)
Abbreviation cell := (option string).

(** [get_countries_from_string] (app.py, lines 24-28). *)
Definition get_countries_from_string (country_string : cell) : list string :=
  match country_string with
  | None => []
  | Some s =>
      if PyStr.is_empty (PyStr.strip s) then []
      else map (fun c => PyStr.title (PyStr.strip c))
               (filter (fun c => PyStr.truthy (PyStr.strip c)) (PyStr.split_comma s))
  end.

(** [Counter]: a dict of counts that keeps the keys in the order of their
    first insertion. *)
Fixpoint counter_incr (k : string) (c : list (string * nat)) : list (string * nat) :=
  match c with
  | [] => [(k, 1%nat)]
  | (k', n) :: c' =>
      if String.eqb k k' then (k', S n) :: c' else (k', n) :: counter_incr k c'
  end.

Definition Counter (l : list string) : list (string * nat) :=
  foldl (fun c k => counter_incr k c) [] l.

(** [counter[k]]: a missing key reads as 0. *)
Fixpoint counter_get (k : string) (c : list (string * nat)) : nat :=
  match c with
  | [] => 0%nat
  | (k', n) :: c' => if String.eqb k k' then n else counter_get k c'
  end.

(** Sorting by count, largest first; among equal counts the earlier item
    stays first (Python's [sorted(..., reverse=True)]). *)
Fixpoint insert_desc (x : string * nat) (l : list (string * nat)) : list (string * nat) :=
  match l with
  | [] => [x]
  | y :: l' => if (snd y <=? snd x)%nat then x :: l else y :: insert_desc x l'
  end.

Definition sort_desc (l : list (string * nat)) : list (string * nat) :=
  foldr insert_desc [] l.

(** [counter.most_common(n)] *)
Definition most_common (n : nat) (c : list (string * nat)) : list (string * nat) :=
  take n (sort_desc c).

(** ** Data model *)

(** One festival entry, as read from the spreadsheet. *)
Record Row := {
  title : cell;
  director : cell;
  year : Z;
  countries : cell;
  section : cell;
  productoras_normalizadas : cell;
  productoras_consolidadas : cell
}.

(** The sheet: its rows and which of the columns that the program tests
    for it has. *)
Record DataFrame := {
  has_countries : bool;
  has_section : bool;
  has_productoras_normalizadas : bool;
  has_productoras_consolidadas : bool;
  rows : list Row
}.

(** [series.dropna()] *)
Definition dropna (l : list cell) : list string := omap id l.

(** Line 57: [df['countries_for_analysis'] = df['countries']]. *)
Definition countries_for_analysis (r : Row) : cell := countries r.

(** [count_countries] (lines 31-36). *)
Definition count_countries (l : list Row) : list (string * nat) :=
  let all_countries :=
    foldl (fun acc cs => acc ++ get_countries_from_string (Some cs))
          [] (dropna (map countries_for_analysis l)) in
  Counter all_countries.

(** ** load_data: the country expander and the producer normalizer *)

(** Lines 66-68: the set of all country names. *)
Definition unique_countries_set (l : list Row) : gset string :=
  foldl (fun acc cs => acc ∪ list_to_set (get_countries_from_string (Some cs)))
        ∅ (dropna (map countries_for_analysis l)).

(** Line 69: [list(unique_countries)]; the order is that of the set. *)
Definition unique_countries (l : list Row) : list string :=
  elements (unique_countries_set l).

(** Lines 74-77: the cell of a row in the column of [country]. *)
Definition country_flag (country : string) (r : Row) : nat :=
  if bool_decide (country ∈ get_countries_from_string (countries_for_analysis r))
  then 1%nat else 0%nat.

(** Line 86: [df[unique_countries].sum(axis=1)], for one row. *)
Definition total_movies (unique_countries : list string) (r : Row) : nat :=
  sum_list (map (fun c => country_flag c r) unique_countries).

(** Where the column [productoras_consolidadas_normalized] comes from. *)
Inductive producer_source := FromNormalizadas | FromConsolidadas.

(** Lines 89-92; [None]: the column is not created. *)
Definition producer_column (d : DataFrame) : option producer_source :=
  if has_productoras_normalizadas d then Some FromNormalizadas
  else if has_productoras_consolidadas d then Some FromConsolidadas
  else None.

Definition productoras_consolidadas_normalized (src : producer_source) (r : Row) : cell :=
  match src with
  | FromNormalizadas => productoras_normalizadas r
  | FromConsolidadas => productoras_consolidadas r
  end.

(** What [load_data] returns: the frame with its derived columns and the
    list of country names. *)
Record Loaded := {
  df : DataFrame;
  all_countries : list string;
  producers : option producer_source
}.

(** [load_data] either returns or stops the session with a message. *)
Inductive stop_reason := MissingFile | MissingCountriesColumn.

Inductive load_result :=
  | LoadOk (L : Loaded)
  | LoadStop (why : stop_reason).

(** [load_data] (lines 40-94); [file] is the sheet at the fixed path, [None]
    when there is no such file. *)
Definition load_data (file : option DataFrame) : load_result :=
  match file with
  | None => LoadStop MissingFile
  | Some d =>
      if has_countries d
      then LoadOk {| df := d;
                     all_countries := unique_countries (rows d);
                     producers := producer_column d |}
      else LoadStop MissingCountriesColumn
  end.

(** ** Filter layer (lines 107-139) *)

(** The values of the sidebar widgets. *)
Record Widgets := {
  year_range : Z * Z;
  selected_countries : list string;
  section_choice : string
}.

(** Line 111: [int(df["year"].min())] and [int(df["year"].max())]; on a
    frame without rows the minimum is NaN and [int] raises ([None]). *)
Definition min_year (l : list Row) : option Z :=
  match map year l with
  | [] => None
  | y :: ys => Some (foldl Z.min y ys)
  end.

Definition max_year (l : list Row) : option Z :=
  match map year l with
  | [] => None
  | y :: ys => Some (foldl Z.max y ys)
  end.

(** Line 115: the initial value of the year slider, the last ten years. *)
Definition default_year_range (l : list Row) : option (Z * Z) :=
  match min_year l, max_year l with
  | Some min_year, Some max_year => Some (Z.max min_year (max_year - 10), max_year)
  | _, _ => None
  end.

(** Line 124: the initial selection of countries. *)
Definition default_countries (all_countries : list string) : list string :=
  filter (fun c => existsb (fun x => PyStr.contains c x)
                           ["Spain"; "France"; "USA"; "Italy"; "United Kingdom"; "Germany"])
         all_countries.

(** Lines 128-132: without a section column the selection is "Todas". *)
Definition selected_section (d : DataFrame) (w : Widgets) : string :=
  if has_section d then section_choice w else "Todas".

Definition in_year_range (w : Widgets) (r : Row) : bool :=
  (fst (year_range w) <=? year r)%Z && (year r <=? snd (year_range w))%Z.

(** [series == value] on a text column: a missing cell is never equal. *)
Definition cell_eqb (c : cell) (v : string) : bool :=
  match c with
  | None => false
  | Some s => String.eqb s v
  end.

(** Lines 135-139. *)
Definition filtered_df (d : DataFrame) (w : Widgets) : list Row :=
  let filtered := filter (fun r => in_year_range w r) (rows d) in
  if has_section d && negb (String.eqb (selected_section d w) "Todas")
  then filter (fun r => cell_eqb (section r) (selected_section d w)) filtered
  else filtered.

(** ** Aggregators *)

(** The keys of [groupby('year')]: the years that occur, increasing. *)
Fixpoint insert_year (y : Z) (ys : list Z) : list Z :=
  match ys with
  | [] => [y]
  | y' :: ys' =>
      if (y <? y')%Z then y :: ys
      else if (y =? y')%Z then ys
      else y' :: insert_year y ys'
  end.

Definition group_keys (l : list Row) : list Z :=
  foldr insert_year [] (map year l).

(** [df.groupby('year')]: each year with its rows, in the order of the frame. *)
Definition groupby_year (l : list Row) : list (Z * list Row) :=
  map (fun y => (y, filter (fun r => year r = y) l)) (group_keys l).

(** Line 155: per year, the sum of the flags of each selected country
    (computed when the selection is not empty; the multiselect widget gives
    distinct names). *)
Definition df_line (filtered : list Row) (selected : list string) : list (Z * list nat) :=
  map (fun g => (fst g, map (fun c => sum_list (map (country_flag c) (snd g))) selected))
      (groupby_year filtered).

(** Lines 254-256. *)
Definition num_countries (r : Row) : nat :=
  match countries_for_analysis r with
  | None => 0%nat
  | Some x => length (get_countries_from_string (Some x))
  end.

(** Line 258: the cell is present and is not the empty string. *)
Definition has_country_data (r : Row) : bool :=
  match countries_for_analysis r with
  | None => false
  | Some x => negb (String.eqb x "")
  end.

(** The numerator and the denominator of a mean. *)
Definition mean_parts (l : list nat) : nat * nat := (sum_list l, length l).

(** Per year, numerator and denominator of the mean of [num_countries]. *)
Definition num_countries_by_year (l : list Row) : list (Z * (nat * nat)) :=
  map (fun g => (fst g, mean_parts (map num_countries (snd g)))) (groupby_year l).

(** Line 262: the rows of the mean are those with country data. *)
Definition avg_countries_with_data_parts (filtered : list Row) : list (Z * (nat * nat)) :=
  num_countries_by_year (filter (fun r => has_country_data r) filtered).

(** Line 295: [avg_countries] is assigned again, from all the filtered
    rows; this is the table that is plotted. *)
Definition avg_countries_parts (filtered : list Row) : list (Z * (nat * nat)) :=
  num_countries_by_year filtered.

(** Lines 265-268: per year, the number of rows with a title
    ([('title', 'count')] skips missing titles) and the number of rows with
    country data. The rounded percentage column of lines 270-271 is not
    modelled. *)
Definition movies_with_country_data (filtered : list Row) : list (Z * (nat * nat)) :=
  map (fun g => (fst g,
                 (length (dropna (map title (snd g))),
                  sum_list (map (fun r => if has_country_data r then 1%nat else 0%nat)
                                (snd g)))))
      (groupby_year filtered).

(** The index of [value_counts().sort_index()]: the values that occur,
    increasing. *)
Fixpoint insert_value (v : nat) (vs : list nat) : list nat :=
  match vs with
  | [] => [v]
  | v' :: vs' =>
      if (v <? v')%nat then v :: vs
      else if (v =? v')%nat then vs
      else v' :: insert_value v vs'
  end.

(** Line 277: for each number of countries, the number of rows that have
    it. *)
Definition coprod_counts (filtered : list Row) : list (nat * nat) :=
  map (fun v => (v, length (filter (fun r => num_countries r = v) filtered)))
      (foldr insert_value [] (map num_countries filtered)).

(** Lines 211-220: the ranking of the geographic view. pandas does not fix
    the order of rows with equal counts; here they keep the order of the
    counter. *)
Definition df_counts (filtered : list Row) : list (string * nat) :=
  sort_desc (count_countries filtered).

(** Line 228: [df_counts.head(15)]. *)
Definition top_countries (filtered : list Row) : list (string * nat) :=
  take 15 (df_counts filtered).

(** Lines 316-318. *)
Definition productoras_lista (src : producer_source) (r : Row) : list string :=
  match productoras_consolidadas_normalized src r with
  | None => []
  | Some x => map PyStr.strip (PyStr.split_comma x)
  end.

(** [get_top_productoras] (lines 321-329); [country_value] is not used. *)
Definition get_top_productoras (src : producer_source) (l : list Row)
    (country_column : string) (n : nat) : list (string * nat) :=
  let country_movies := filter (fun r => country_flag country_column r = 1%nat) l in
  let all_productoras :=
    foldl (fun acc r => acc ++ productoras_lista src r) [] country_movies in
  most_common n (Counter all_productoras).

(** What the producer tab shows. *)
Inductive producer_view :=
  | ProducerChart (top_productoras : list (string * nat))
  | ProducerInfo
  | ProducerWarning.

(** Lines 311-372, for the country chosen in the select box. *)
Definition producer_tab (L : Loaded) (w : Widgets) (selected_country : string) : producer_view :=
  match producers L with
  | Some src =>
      let top_productoras := get_top_productoras src (filtered_df (df L) w) selected_country 10 in
      match top_productoras with
      | [] => ProducerInfo
      | _ :: _ => ProducerChart top_productoras
      end
  | None => ProducerWarning
  end.

Section Float.

(** The rounding of one float operation: the float nearest to the exact
    result. *)
Variable fl : Q -> Q.

(** [series.mean()] *)
Definition mean (l : list nat) : Q :=
  fl (inject_Z (Z.of_nat (fst (mean_parts l))) / inject_Z (Z.of_nat (snd (mean_parts l)))).

Definition avg_countries_with_data (filtered : list Row) : list (Z * Q) :=
  map (fun g => (fst g, mean (map num_countries (snd g))))
      (groupby_year (filter (fun r => has_country_data r) filtered)).

Definition avg_countries (filtered : list Row) : list (Z * Q) :=
  map (fun g => (fst g, mean (map num_countries (snd g)))) (groupby_year filtered).

(** Line 179, one cell: [count / row_sum * 100]. A zero row sum is the sum
    of zero counts, and 0/0 is NaN ([None]). *)
Definition percent_cell (row_sum count : nat) : option Q :=
  if (row_sum =? 0)%nat then None
  else Some (fl (fl (inject_Z (Z.of_nat count) / inject_Z (Z.of_nat row_sum)) * 100)).

(** Lines 176-179. *)
Definition df_percent (filtered : list Row) (selected : list string) : list (Z * list (option Q)) :=
  map (fun line =>
         let row_sums := sum_list (snd line) in
         (fst line, map (percent_cell row_sums) (snd line)))
      (df_line filtered selected).

End Float.

(** ** Vocabulary of the statements *)

(** A row with a year and a countries cell, nothing else filled in. *)
Definition entry (y : Z) (c : cell) : Row :=
  {| title := None; director := None; year := y; countries := c;
     section := None; productoras_normalizadas := None;
     productoras_consolidadas := None |}.

(** A sheet with the mandatory columns only. *)
Definition sheet (l : list Row) : DataFrame :=
  {| has_countries := true; has_section := false;
     has_productoras_normalizadas := false;
     has_productoras_consolidadas := false; rows := l |}.

(** The example of the specification. *)
Definition example_rows : list Row :=
  [entry 2020 (Some "France, USA"); entry 2020 (Some "France"); entry 2021 (Some "")].

(** The condition of the filter layer on one row. *)
Definition satisfies (d : DataFrame) (w : Widgets) (r : Row) : Prop :=
  (fst (year_range w) <= year r <= snd (year_range w))%Z
  /\ (selected_section d w = "Todas" \/ section r = Some (selected_section d w)).

#[global] Instance satisfies_dec d w r : Decision (satisfies d w r).
Proof. unfold satisfies. apply _. Defined.

(** The widgets with another selection of countries. *)
Definition with_countries (sel : list string) (w : Widgets) : Widgets :=
  {| year_range := year_range w; selected_countries := sel;
     section_choice := section_choice w |}.

(** How often [k] occurs in a list of names. *)
Definition occurrences (k : string) (l : list string) : nat :=
  length (filter (fun x => x = k) l).

(** Largest count first. *)
Definition descending (l : list (string * nat)) : Prop :=
  StronglySorted (fun x y => (snd y <= snd x)%nat) l.

(** Every character of [s] satisfies [p]. *)
Fixpoint all_chars (p : ascii -> bool) (s : string) : bool :=
  match s with
  | EmptyString => true
  | String c s' => p c && all_chars p s'
  end.

(** Only white space. *)
Definition all_space (s : string) : bool := all_chars PyStr.is_space s.

(** Only commas and white space. *)
Definition commas_and_space (s : string) : bool :=
  all_chars (fun c => PyStr.is_space c || Ascii.eqb c ",") s.

(** The parsing algorithm in the words of the specification: split on
    commas, trim each token, discard the tokens that are empty after
    trimming, title-case the rest; an absent field is the empty list. *)
Definition parse_countries_spec (field : cell) : list string :=
  match field with
  | None => []
  | Some s =>
      map PyStr.title
          (filter (fun t => t <> EmptyString) (map PyStr.strip (PyStr.split_comma s)))
  end.

(** A field that is absent or holds only white space. *)
Definition blank (field : cell) : Prop :=
  match field with
  | None => True
  | Some s => all_space s = true
  end.


(** The keys of a counter are distinct and its counts positive. *)
Definition counter_wf (c : list (string * nat)) : Prop :=
  NoDup (map fst c) /\ Forall (fun e => (0 < snd e)%nat) c.


(** A sheet with a producers column: a French film with two producers and
    a Spanish film whose producers cell is empty. *)
Definition producer_rows : list Row :=
  [ {| title := Some "Titane"; director := Some "Julia Ducournau"; year := 2021;
       countries := Some "France"; section := None;
       productoras_normalizadas := Some "Kazak Productions, Frakas Productions";
       productoras_consolidadas := None |};
    {| title := Some "Libertad"; director := Some "Clara Roquet"; year := 2021;
       countries := Some "Spain"; section := None;
       productoras_normalizadas := None;
       productoras_consolidadas := None |} ].

Definition producer_sheet : DataFrame :=
  {| has_countries := true; has_section := false;
     has_productoras_normalizadas := true;
     has_productoras_consolidadas := false; rows := producer_rows |}.

Definition producer_loaded : Loaded :=
  {| df := producer_sheet;
     all_countries := unique_countries producer_rows;
     producers := producer_column producer_sheet |}.

(** A selection of widgets: the years 2015-2025, no country, every section. *)
Definition default_widgets : Widgets :=
  {| year_range := (2015%Z, 2025%Z); selected_countries := []; section_choice := "Todas" |}.

(** The sum of a list of rationals. *)
Definition Qsum (l : list Q) : Q := foldr Qplus 0%Q l.

(** A count as a rational. *)
Definition Qnat (n : nat) : Q := inject_Z (Z.of_nat n).

(** [fl] rounds with relative error at most [u] (for binary64 and rounding
    to nearest, [u] is 2^-53). *)
Definition rounds_within (fl : Q -> Q) (u : Q) : Prop :=
  forall x : Q, (Qabs (fl x - x) <= u * Qabs x)%Q.

(** No upper-case letter directly after a cased character; [prev] tells
    whether the character before [s] is cased. *)
Fixpoint no_upper_after_cased (prev : bool) (s : string) : bool :=
  match s with
  | EmptyString => true
  | String c s' =>
      negb (prev && PyStr.is_upper c) && no_upper_after_cased (PyStr.is_cased c) s'
  end.

(** No comma in the text. *)
Definition comma_free (s : string) : bool :=
  all_chars (fun c => negb (Ascii.eqb c ",")) s.

(** The patterns of the initial selection that can match a country name. *)
Definition live_patterns : list string :=
  ["Spain"; "France"; "Italy"; "United Kingdom"; "Germany"].

(** The sum of the counts of a counter. *)
Definition counter_total (c : list (string * nat)) : nat := sum_list (map snd c).

(** Years strictly increasing. *)
Definition increasing (ys : list Z) : Prop := StronglySorted Z.lt ys.

(** The widgets with another range of years. *)
Definition with_years (range : Z * Z) (w : Widgets) : Widgets :=
  {| year_range := range; selected_countries := selected_countries w;
     section_choice := section_choice w |}.

(** The widgets with another choice of section. *)
Definition with_section (choice : string) (w : Widgets) : Widgets :=
  {| year_range := year_range w; selected_countries := selected_countries w;
     section_choice := choice |}.

(** The producer names collected by [get_top_productoras] (its
    [all_productoras]): those of the rows with the flag of the country. *)
Definition flagged_producers (src : producer_source) (l : list Row) (country : string)
    : list string :=
  foldl (fun acc r => acc ++ productoras_lista src r) []
        (filter (fun r => country_flag country r = 1%nat) l).

(** The distinct names of a list, in the order of their first occurrence. *)
Definition first_occurrences (l : list string) : list string :=
  foldl (fun acc x => if bool_decide (x ∈ acc) then acc else acc ++ [x]) [] l.
(** * Properties *)

(** ** Strings *)

Lemma is_empty_true s : PyStr.is_empty s = true <-> s = EmptyString.
Proof. destruct s; simpl; split; congruence. Qed.

Lemma lstrip_empty s : PyStr.lstrip s = EmptyString <-> all_space s = true.
Proof.
  unfold all_space. induction s as [|c s IH]; simpl; [tauto|].
  destruct (PyStr.is_space c); simpl; [exact IH|].
  split; congruence.
Qed.

Lemma rstrip_empty s : PyStr.rstrip s = EmptyString <-> all_space s = true.
Proof.
  unfold all_space. induction s as [|c s IH]; simpl; [tauto|].
  destruct (PyStr.is_space c); simpl.
  - destruct (PyStr.rstrip s) eqn:E; simpl.
    + split; [intros _; apply IH; reflexivity | reflexivity].
    + split; [congruence|]. intros H. apply IH in H. congruence.
  - split; congruence.
Qed.

Lemma rstrip_all_space s : all_space (PyStr.rstrip s) = all_space s.
Proof.
  induction s as [|c s IH]; simpl; [reflexivity|].
  unfold all_space in *. simpl.
  destruct (PyStr.is_space c) eqn:Ec; simpl.
  - destruct (PyStr.is_empty (PyStr.rstrip s)) eqn:E; simpl.
    + apply is_empty_true in E. symmetry. apply rstrip_empty. exact E.
    + rewrite Ec. simpl. exact IH.
  - rewrite Ec. reflexivity.
Qed.

Lemma strip_empty s : PyStr.strip s = EmptyString <-> all_space s = true.
Proof.
  unfold PyStr.strip. rewrite lstrip_empty, rstrip_all_space. tauto.
Qed.

Lemma space_not_comma c : PyStr.is_space c = true -> Ascii.eqb c "," = false.
Proof.
  intros H. destruct (Ascii.eqb c ",") eqn:E; [|reflexivity].
  apply Ascii.eqb_eq in E. subst c. discriminate H.
Qed.

Lemma split_comma_all_space s : all_space s = true -> PyStr.split_comma s = [s].
Proof.
  unfold all_space. induction s as [|c s IH]; simpl; [reflexivity|].
  intros H. apply andb_true_iff in H as [Hc Hs].
  rewrite (space_not_comma _ Hc), (IH Hs). reflexivity.
Qed.

Lemma split_comma_blank s :
  commas_and_space s = true -> Forall (fun t => all_space t = true) (PyStr.split_comma s).
Proof.
  unfold commas_and_space. induction s as [|c s IH]; simpl.
  - intros _. repeat constructor.
  - intros H. apply andb_true_iff in H as [Hc Hs]. specialize (IH Hs).
    destruct (Ascii.eqb c ",") eqn:E.
    + constructor; [reflexivity | exact IH].
    + rewrite orb_false_r in Hc.
      destruct (PyStr.split_comma s) as [|t ts].
      * constructor; [|constructor]. unfold all_space. simpl. rewrite Hc. reflexivity.
      * inversion IH; subst. constructor; [|assumption].
        unfold all_space in *. simpl. rewrite Hc. assumption.
Qed.

(** ** The parser *)

Lemma filter_strip_tokens (l : list string) :
  map (fun c => PyStr.title (PyStr.strip c)) (filter (fun c => PyStr.truthy (PyStr.strip c)) l)
  = map PyStr.title (filter (fun t => t <> EmptyString) (map PyStr.strip l)).
Proof.
  induction l as [|t l IH]; [reflexivity|].
  rewrite filter_cons. simpl map at 3. rewrite filter_cons.
  destruct (PyStr.strip t) eqn:E; simpl.
  - destruct (decide (EmptyString <> EmptyString)) as [H|H]; [congruence|].
    destruct (decide (Is_true false)) as [[]|_]. exact IH.
  - destruct (decide (String a s <> EmptyString)) as [H|H]; [|exfalso; apply H; congruence].
    destruct (decide (Is_true true)) as [_|H']; [|exfalso; apply H'; exact I].
    simpl. rewrite E. f_equal. exact IH.
Qed.

Lemma parse_blank_tokens (l : list string) :
  Forall (fun t => all_space t = true) l ->
  filter (fun t => t <> EmptyString) (map PyStr.strip l) = [].
Proof.
  induction 1 as [|t l Ht _ IH]; [reflexivity|].
  simpl map. rewrite filter_cons. apply strip_empty in Ht. rewrite Ht.
  destruct (decide (EmptyString <> EmptyString)); [congruence | exact IH].
Qed.

Lemma get_countries_from_string_eq_spec field :
  get_countries_from_string field = parse_countries_spec field.
Proof.
  destruct field as [s|]; [|reflexivity]. simpl.
  destruct (PyStr.is_empty (PyStr.strip s)) eqn:E.
  - apply is_empty_true, strip_empty in E.
    rewrite (split_comma_all_space _ E).
    rewrite parse_blank_tokens; [reflexivity|]. constructor; [exact E | constructor].
  - apply filter_strip_tokens.
Qed.

Lemma get_countries_from_string_blank s :
  commas_and_space s = true -> get_countries_from_string (Some s) = [].
Proof.
  intros H. rewrite get_countries_from_string_eq_spec. simpl.
  rewrite parse_blank_tokens; [reflexivity|]. apply split_comma_blank, H.
Qed.

Lemma all_space_commas_and_space s : all_space s = true -> commas_and_space s = true.
Proof.
  unfold all_space, commas_and_space. induction s as [|c s IH]; simpl; [reflexivity|].
  intros H. apply andb_true_iff in H as [Hc Hs]. rewrite Hc, (IH Hs). reflexivity.
Qed.

(** The input of the docstring: title-casing turns "USA" into "Usa". *)
Example get_countries_from_string_docstring_input :
  get_countries_from_string (Some "France, USA") = ["France"; "Usa"]
  /\ get_countries_from_string (Some " france ,, uNITED kingdom,") = ["France"; "United Kingdom"]
  /\ get_countries_from_string None = []
  /\ get_countries_from_string (Some "") = [].
Proof. repeat split; vm_compute; reflexivity. Qed.

(** ** The country expander *)

Lemma elem_of_map {A B} (f : A -> B) (l : list A) (y : B) :
  y ∈ map f l <-> exists x, y = f x /\ x ∈ l.
Proof. apply (list_elem_of_fmap f l y). Qed.

Lemma elem_of_dropna (l : list cell) (s : string) : s ∈ dropna l <-> Some s ∈ l.
Proof.
  unfold dropna. rewrite list_elem_of_omap. split.
  - intros (x & Hx & E). simpl in E. subst x. exact Hx.
  - intros H. exists (Some s). split; [exact H | reflexivity].
Qed.

Lemma elem_of_union_parsed (cells : list string) (acc : gset string) (c : string) :
  c ∈ foldl (fun acc cs => acc ∪ list_to_set (get_countries_from_string (Some cs))) acc cells
  <-> c ∈ acc \/ exists cs, cs ∈ cells /\ c ∈ get_countries_from_string (Some cs).
Proof.
  revert acc. induction cells as [|x cells IH]; intros acc; simpl.
  - split; [auto|]. intros [H|(cs & H & _)]; [exact H|]. inversion H.
  - rewrite IH, elem_of_union, elem_of_list_to_set. split.
    + intros [[H|H]|(cs & Hcs & H)]; [auto | right; exists x | right; exists cs];
        (split; [|exact H]); [left | right; exact Hcs].
    + intros [H|(cs & Hcs & H)]; [auto|].
      apply elem_of_cons in Hcs as [->|Hcs]; [auto|]. right. exists cs. auto.
Qed.

Lemma unique_countries_set_spec (l : list Row) (c : string) :
  c ∈ unique_countries_set l
  <-> exists r, r ∈ l /\ c ∈ get_countries_from_string (countries_for_analysis r).
Proof.
  unfold unique_countries_set. rewrite elem_of_union_parsed. split.
  - intros [H|(cs & Hcs & H)]; [set_solver|].
    apply elem_of_dropna, elem_of_map in Hcs as (r & E & Hr).
    exists r. rewrite <- E. auto.
  - intros (r & Hr & H). right.
    destruct (countries_for_analysis r) as [cs|] eqn:E; [|inversion H].
    exists cs. split; [|exact H].
    apply elem_of_dropna, elem_of_map. exists r. auto.
Qed.

Lemma unique_countries_spec (l : list Row) (c : string) :
  c ∈ unique_countries l
  <-> exists r, r ∈ l /\ c ∈ get_countries_from_string (countries_for_analysis r).
Proof.
  unfold unique_countries.
  rewrite (elem_of_elements (unique_countries_set l) c).
  apply unique_countries_set_spec.
Qed.

Lemma unique_countries_NoDup (l : list Row) : NoDup (unique_countries l).
Proof. apply (NoDup_elements (unique_countries_set l)). Qed.

(** Summing 0/1 membership flags over a duplicate-free list of names counts
    the names of the list that are members. *)
Lemma sum_flags_inter (P : list string) (L : list string) :
  NoDup L ->
  sum_list (map (fun c => if bool_decide (c ∈ P) then 1%nat else 0%nat) L)
  = size ((list_to_set P : gset string) ∩ list_to_set L).
Proof.
  induction 1 as [|a L Ha HL IH]; simpl.
  - rewrite intersection_empty_r_L. reflexivity.
  - rewrite IH. case_bool_decide as Hin.
    + replace (list_to_set P ∩ ({[a]} ∪ list_to_set L) : gset string)
        with ({[a]} ∪ (list_to_set P ∩ list_to_set L) : gset string) by set_solver.
      rewrite (size_union (C:=gset string) {[a]}) by set_solver.
      rewrite size_singleton. reflexivity.
    + replace (list_to_set P ∩ ({[a]} ∪ list_to_set L) : gset string)
        with (list_to_set P ∩ list_to_set L : gset string) by set_solver.
      reflexivity.
Qed.

Lemma sum_flags_distinct (P : list string) (L : list string) :
  NoDup L -> (forall c, c ∈ P -> c ∈ L) ->
  sum_list (map (fun c => if bool_decide (c ∈ P) then 1%nat else 0%nat) L)
  = size (list_to_set P : gset string).
Proof.
  intros HL Hsub. rewrite sum_flags_inter by exact HL.
  f_equal. set_solver.
Qed.

Lemma total_movies_distinct (l : list Row) (r : Row) :
  r ∈ l ->
  total_movies (unique_countries l) r
  = size (list_to_set (get_countries_from_string (countries_for_analysis r)) : gset string).
Proof.
  intros Hr. unfold total_movies, country_flag.
  apply sum_flags_distinct; [apply unique_countries_NoDup|].
  intros c Hc. apply unique_countries_spec. exists r. auto.
Qed.

Lemma num_countries_length (r : Row) :
  num_countries r = length (get_countries_from_string (countries_for_analysis r)).
Proof. unfold num_countries. destruct (countries_for_analysis r); reflexivity. Qed.

Lemma size_list_to_set_le (P : list string) :
  size (list_to_set P : gset string) <= length P.
Proof.
  induction P as [|a P IH]; [rewrite list_to_set_nil, size_empty; reflexivity|].
  rewrite list_to_set_cons, length_cons, size_union_alt.
  rewrite size_singleton.
  assert (size (list_to_set P ∖ {[a]} : gset string) <= size (list_to_set P : gset string))
    by (apply subseteq_size; set_solver).
  lia.
Qed.

Lemma size_list_to_set_NoDup (P : list string) :
  size (list_to_set P : gset string) = length P <-> NoDup P.
Proof.
  split; [|apply size_list_to_set].
  induction P as [|a P IH]; [constructor|].
  rewrite list_to_set_cons, length_cons.
  intros H. destruct (decide (a ∈ P)) as [Hin|Hin].
  - exfalso.
    replace ({[a]} ∪ list_to_set P : gset string) with (list_to_set P : gset string) in H
      by set_solver.
    pose proof (size_list_to_set_le P). lia.
  - rewrite (size_union (C:=gset string) {[a]}) in H by set_solver.
    rewrite size_singleton in H.
    constructor; [exact Hin | apply IH; lia].
Qed.

(** C4. Parsing a countries field splits the text on commas, trims each
    token, discards the tokens that are empty after trimming and title-cases
    the remaining ones; a field that is absent or blank gives the empty list
    (the function is total: there is no error case). *)
Theorem get_countries_from_string_parses (field : cell) :
  get_countries_from_string field = parse_countries_spec field
  /\ (blank field -> get_countries_from_string field = []).
Proof.
  split; [apply get_countries_from_string_eq_spec|].
  destruct field as [s|]; [|reflexivity].
  intros H. apply get_countries_from_string_blank, all_space_commas_and_space, H.
Qed.

Lemma get_countries_from_string_parses_witness :
  blank (Some "   ") /\ get_countries_from_string (Some "   ") = [].
Proof.
  split; [reflexivity|].
  apply (proj2 (get_countries_from_string_parses (Some "   "))). reflexivity.
Defined.

(** C5. The vocabulary built by [load_data] is the union of the parsed
    country sets of the rows: a name is in the vocabulary exactly when some
    row's parsed countries contain it, and no name is listed twice. *)
Theorem unique_countries_is_union (l : list Row) :
  (forall c, c ∈ unique_countries l
             <-> exists r, r ∈ l /\ c ∈ get_countries_from_string (countries r))
  /\ NoDup (unique_countries l)
  /\ forall d, has_countries d = true -> rows d = l ->
       exists L, load_data (Some d) = LoadOk L /\ all_countries L = unique_countries l.
Proof.
  split; [intros c; apply unique_countries_spec|].
  split; [apply unique_countries_NoDup|].
  intros d Hc <-. unfold load_data. rewrite Hc. eexists. split; reflexivity.
Qed.

Lemma unique_countries_is_union_witness :
  has_countries (sheet example_rows) = true /\ rows (sheet example_rows) = example_rows
  /\ exists L, load_data (Some (sheet example_rows)) = LoadOk L
               /\ all_countries L = unique_countries example_rows.
Proof.
  split; [reflexivity|]. split; [reflexivity|].
  apply (proj2 (proj2 (unique_countries_is_union example_rows)) (sheet example_rows));
    reflexivity.
Defined.

(** C2, as the code has it. For a row of the loaded sheet, [total_movies]
    is the number of distinct parsed country names; [num_countries] is the
    number of parsed tokens, repeated names included, so it is at least the
    number of distinct names and equal to it exactly when no name is
    repeated in the field. *)
Theorem country_counts_of_row (l : list Row) (r : Row) :
  r ∈ l ->
  let names := get_countries_from_string (countries r) in
  total_movies (unique_countries l) r = size (list_to_set names : gset string)
  /\ num_countries r = length names
  /\ size (list_to_set names : gset string) <= num_countries r
  /\ (num_countries r = size (list_to_set names : gset string) <-> NoDup names).
Proof.
  intros Hr names. split; [apply total_movies_distinct, Hr|].
  pose proof (num_countries_length r) as Hn. fold names in Hn.
  change (countries_for_analysis r) with (countries r) in Hn.
  split; [exact Hn|]. rewrite Hn.
  split; [apply size_list_to_set_le|].
  rewrite <- size_list_to_set_NoDup. split; intros E; symmetry; exact E.
Qed.

Lemma country_counts_of_row_witness :
  entry 2020 (Some "France, USA") ∈ example_rows
  /\ total_movies (unique_countries example_rows) (entry 2020 (Some "France, USA"))
     = size (list_to_set (get_countries_from_string (Some "France, USA")) : gset string).
Proof.
  assert (H : entry 2020 (Some "France, USA") ∈ example_rows) by (left).
  split; [exact H|].
  apply (proj1 (country_counts_of_row example_rows _ H)).
Defined.

(** C2 fails as stated: in a field that repeats a name, [num_countries]
    counts the name twice while the set of names has one element. *)
Lemma num_countries_counts_duplicates :
  num_countries (entry 2020 (Some "France, France")) = 2%nat
  /\ size (list_to_set (get_countries_from_string (Some "France, France")) : gset string)
     = 1%nat
  /\ num_countries (entry 2020 (Some "France, France"))
     <> size (list_to_set (get_countries_from_string
                             (countries (entry 2020 (Some "France, France")))) : gset string).
Proof. vm_compute. repeat split; try reflexivity. discriminate. Qed.

(** ** Grouping by year *)

Lemma elem_of_insert_year (x y : Z) (ys : list Z) :
  x ∈ insert_year y ys <-> x = y \/ x ∈ ys.
Proof.
  induction ys as [|y' ys IH]; simpl.
  - rewrite list_elem_of_singleton. split; [auto|]. intros [H|H]; [exact H | inversion H].
  - destruct (Z.ltb_spec y y') as [Hlt|Hge].
    + rewrite elem_of_cons. tauto.
    + destruct (Z.eqb_spec y y') as [->|Hne].
      * rewrite elem_of_cons. tauto.
      * rewrite !elem_of_cons, IH. tauto.
Qed.

Lemma elem_of_group_keys (y : Z) (l : list Row) :
  y ∈ group_keys l <-> exists r, r ∈ l /\ year r = y.
Proof.
  unfold group_keys. induction l as [|r l IH]; simpl.
  - split; [intros H; inversion H | intros (r & H & _); inversion H].
  - rewrite elem_of_insert_year, IH. split.
    + intros [->|(r' & Hr' & E)]; [exists r | exists r']; split; auto; [left | right; exact Hr'].
    + intros (r' & Hr' & E). apply elem_of_cons in Hr' as [->|Hr']; [auto|].
      right. exists r'. auto.
Qed.

Lemma elem_of_groupby_year (y : Z) (g : list Row) (l : list Row) :
  (y, g) ∈ groupby_year l
  <-> (exists r, r ∈ l /\ year r = y) /\ g = filter (fun r => year r = y) l.
Proof.
  unfold groupby_year. rewrite elem_of_map, <- elem_of_group_keys. split.
  - intros (y' & E & Hy'). inversion E; subst. auto.
  - intros (Hy & ->). exists y. auto.
Qed.

(** A row of the frame is in the group of its year. *)
Lemma row_in_its_group (r : Row) (l : list Row) :
  r ∈ l -> exists g, (year r, g) ∈ groupby_year l /\ r ∈ g.
Proof.
  intros Hr. exists (filter (fun r' => year r' = year r) l). split.
  - apply elem_of_groupby_year. split; [exists r; auto | reflexivity].
  - apply list_elem_of_filter. auto.
Qed.

(** ** Co-production mean *)

Lemma has_country_data_nonempty (r : Row) (s : string) :
  countries r = Some s -> s <> EmptyString -> has_country_data r = true.
Proof.
  intros E Hs. unfold has_country_data, countries_for_analysis. rewrite E.
  destruct (String.eqb_spec s ""); [contradiction | reflexivity].
Qed.

(** C10. A row whose countries field is a non-empty text made only of white
    space and commas parses to no country and has [num_countries] 0, but its
    [has_country_data] flag is set: the row is among the rows over which the
    mean of its year is taken, both in the table restricted to rows with
    country data (line 262) and in the plotted one (line 295), and it adds 0
    to the sum and 1 to the number of rows. *)
Theorem blank_text_row_is_averaged (filtered : list Row) (r : Row) (s : string) :
  r ∈ filtered -> countries r = Some s -> s <> EmptyString -> commas_and_space s = true ->
  get_countries_from_string (countries r) = []
  /\ num_countries r = 0%nat
  /\ has_country_data r = true
  /\ (exists g, (year r, g) ∈ groupby_year (filter (fun r => has_country_data r) filtered)
                /\ r ∈ g
                /\ (year r, mean_parts (map num_countries g))
                   ∈ avg_countries_with_data_parts filtered)
  /\ (exists g, (year r, g) ∈ groupby_year filtered
                /\ r ∈ g
                /\ (year r, mean_parts (map num_countries g)) ∈ avg_countries_parts filtered)
  /\ forall g, mean_parts (map num_countries (r :: g))
               = (fst (mean_parts (map num_countries g)),
                  S (snd (mean_parts (map num_countries g)))).
Proof.
  intros Hr E Hs Hb.
  assert (Hp : get_countries_from_string (countries r) = [])
    by (rewrite E; apply get_countries_from_string_blank, Hb).
  assert (Hn : num_countries r = 0%nat)
    by (rewrite num_countries_length; unfold countries_for_analysis; rewrite Hp; reflexivity).
  assert (Hd : has_country_data r = true) by (eapply has_country_data_nonempty; eauto).
  split; [exact Hp|]. split; [exact Hn|]. split; [exact Hd|].
  split; [|split].
  - destruct (row_in_its_group r (filter (fun r => has_country_data r) filtered))
      as (g & Hg & Hrg).
    + apply list_elem_of_filter. split; [rewrite Hd; exact I | exact Hr].
    + exists g. split; [exact Hg|]. split; [exact Hrg|].
      unfold avg_countries_with_data_parts, num_countries_by_year.
      apply elem_of_map. exists (year r, g). auto.
  - destruct (row_in_its_group r filtered Hr) as (g & Hg & Hrg).
    exists g. split; [exact Hg|]. split; [exact Hrg|].
    unfold avg_countries_parts, num_countries_by_year.
    apply elem_of_map. exists (year r, g). auto.
  - intros g. unfold mean_parts. simpl. rewrite Hn. reflexivity.
Qed.

Lemma blank_text_row_is_averaged_witness :
  entry 2021 (Some " , ") ∈ [entry 2021 (Some "Spain"); entry 2021 (Some " , ")]
  /\ countries (entry 2021 (Some " , ")) = Some " , "
  /\ " , " <> EmptyString
  /\ commas_and_space " , " = true
  /\ num_countries (entry 2021 (Some " , ")) = 0%nat
  /\ has_country_data (entry 2021 (Some " , ")) = true.
Proof.
  assert (H1 : entry 2021 (Some " , ") ∈ [entry 2021 (Some "Spain"); entry 2021 (Some " , ")])
    by (right; left).
  assert (H3 : " , " <> EmptyString) by discriminate.
  split; [exact H1|]. split; [reflexivity|]. split; [exact H3|]. split; [reflexivity|].
  pose proof (blank_text_row_is_averaged _ _ " , " H1 eq_refl H3 eq_refl) as (_ & Hn & Hd & _).
  split; [exact Hn | exact Hd].
Defined.

(** The table of line 262 leaves out the rows whose countries cell is
    absent or the empty string. *)
Lemma avg_countries_with_data_leaves_out (filtered : list Row) (r : Row) (y : Z) (g : list Row) :
  (countries r = None \/ countries r = Some EmptyString) ->
  (y, g) ∈ groupby_year (filter (fun r => has_country_data r) filtered) -> r ∉ g.
Proof.
  intros Hc Hg Hr. apply elem_of_groupby_year in Hg as (_ & ->).
  apply list_elem_of_filter in Hr as (_ & Hr).
  apply list_elem_of_filter in Hr as (Hd & _).
  unfold has_country_data, countries_for_analysis in Hd.
  destruct Hc as [Hc|Hc]; rewrite Hc in Hd; exact Hd.
Qed.

(** C1, on the code. In the year 2020 one film has two countries, one has
    no countries cell and one has an empty one. The plotted [avg_countries]
    (line 295) takes the mean over the three rows, 2/3; the table of line
    262, which it replaces, takes it over the one row with countries, 2/1. *)
Theorem avg_countries_averages_rows_without_countries :
  avg_countries_parts
    [entry 2020 (Some "France, USA"); entry 2020 None; entry 2020 (Some "")]
  = [(2020%Z, (2%nat, 3%nat))]
  /\ avg_countries_with_data_parts
       [entry 2020 (Some "France, USA"); entry 2020 None; entry 2020 (Some "")]
     = [(2020%Z, (2%nat, 1%nat))].
Proof. split; vm_compute; reflexivity. Qed.

(** ** Filter layer *)

Lemma cell_eqb_true (c : cell) (v : string) : cell_eqb c v = true <-> c = Some v.
Proof.
  destruct c as [s|]; simpl; [|split; discriminate].
  rewrite String.eqb_eq. split; congruence.
Qed.

Lemma in_year_range_true (w : Widgets) (r : Row) :
  Is_true (in_year_range w r) <-> (fst (year_range w) <= year r <= snd (year_range w))%Z.
Proof.
  unfold in_year_range. rewrite andb_True, !Is_true_true, !Z.leb_le. tauto.
Qed.

Lemma filtered_df_filter (d : DataFrame) (w : Widgets) :
  filtered_df d w = filter (satisfies d w) (rows d).
Proof.
  unfold filtered_df.
  destruct (has_section d && negb (String.eqb (selected_section d w) "Todas")) eqn:E.
  - apply andb_true_iff in E as [_ E]. apply negb_true_iff, String.eqb_neq in E.
    rewrite list_filter_filter. apply list_filter_iff. intros r.
    unfold satisfies. rewrite in_year_range_true, Is_true_true, cell_eqb_true. tauto.
  - apply list_filter_iff. intros r. unfold satisfies. rewrite in_year_range_true.
    assert (selected_section d w = "Todas") as ->; [|tauto].
    unfold selected_section in *. destruct (has_section d); [|reflexivity].
    simpl in E. apply negb_false_iff, String.eqb_eq in E. exact E.
Qed.

(** C6. The filtered frame consists of exactly the rows of the sheet, in
    their order, whose year lies in the selected range and whose section is
    the selected one unless the selection is the sentinel "Todas"; the
    selection of countries has no influence on it. *)
Theorem filtered_df_exact (d : DataFrame) (w : Widgets) :
  filtered_df d w = filter (satisfies d w) (rows d)
  /\ (forall r, r ∈ filtered_df d w
                <-> r ∈ rows d
                    /\ (fst (year_range w) <= year r <= snd (year_range w))%Z
                    /\ (selected_section d w = "Todas"
                        \/ section r = Some (selected_section d w)))
  /\ forall sel, filtered_df d (with_countries sel w) = filtered_df d w.
Proof.
  split; [apply filtered_df_filter|]. split.
  - intros r. rewrite filtered_df_filter, list_elem_of_filter. unfold satisfies. tauto.
  - intros sel. reflexivity.
Qed.

(** ** Producer ranking *)

Lemma most_common_nil (n : nat) : most_common n (Counter []) = [].
Proof. unfold most_common, Counter. simpl. apply take_nil. Qed.

Lemma no_producers_collected (src : producer_source) (l : list Row) (acc : list string) :
  (forall r, r ∈ l -> productoras_consolidadas_normalized src r = None) ->
  foldl (fun acc r => acc ++ productoras_lista src r) acc l = acc.
Proof.
  revert acc. induction l as [|r l IH]; intros acc H; simpl; [reflexivity|].
  rewrite IH by (intros r' Hr'; apply H; right; exact Hr').
  unfold productoras_lista. rewrite H by left. apply app_nil_r.
Qed.

(** C8. When no row of the filtered frame that has the flag of the selected
    country set carries a producers cell -- in particular when no row has
    the flag set -- [get_top_productoras] returns the empty list for every
    [n], and the producer tab shows its "no data" message. *)
Theorem get_top_productoras_without_data
    (L : Loaded) (w : Widgets) (src : producer_source) (country : string) (n : nat) :
  producers L = Some src ->
  (forall r, r ∈ filtered_df (df L) w -> country_flag country r = 1%nat ->
             productoras_consolidadas_normalized src r = None) ->
  get_top_productoras src (filtered_df (df L) w) country n = []
  /\ producer_tab L w country = ProducerInfo.
Proof.
  intros Hsrc H.
  assert (E : forall m, get_top_productoras src (filtered_df (df L) w) country m = []).
  { intros m. unfold get_top_productoras. rewrite no_producers_collected.
    - apply most_common_nil.
    - intros r Hr. apply list_elem_of_filter in Hr as [Hf Hr]. apply H; assumption. }
  split; [apply E|]. unfold producer_tab. rewrite Hsrc, E. reflexivity.
Qed.

(** ** Counters and rankings *)

Lemma counter_get_incr (k k' : string) (c : list (string * nat)) :
  counter_get k (counter_incr k' c)
  = (counter_get k c + if String.eqb k k' then 1 else 0)%nat.
Proof.
  induction c as [|[k0 n] c IH]; simpl.
  - destruct (String.eqb k k'); reflexivity.
  - destruct (String.eqb_spec k' k0) as [->|Hne]; simpl.
    + destruct (String.eqb k k0); lia.
    + rewrite IH. destruct (String.eqb_spec k k0) as [->|Hne']; [|reflexivity].
      destruct (String.eqb_spec k0 k'); [congruence | lia].
Qed.

Lemma occurrences_cons (k x : string) (l : list string) :
  occurrences k (x :: l) = ((if String.eqb k x then 1 else 0) + occurrences k l)%nat.
Proof.
  unfold occurrences. rewrite filter_cons.
  destruct (String.eqb_spec k x) as [->|Hne]; case_decide; simpl; congruence.
Qed.

Lemma occurrences_app (k : string) (l1 l2 : list string) :
  occurrences k (l1 ++ l2) = (occurrences k l1 + occurrences k l2)%nat.
Proof. unfold occurrences. rewrite filter_app, length_app. reflexivity. Qed.

Lemma counter_get_foldl (k : string) (l : list string) (c : list (string * nat)) :
  counter_get k (foldl (fun c k => counter_incr k c) c l)
  = (counter_get k c + occurrences k l)%nat.
Proof.
  revert c. induction l as [|x l IH]; intros c; simpl.
  - unfold occurrences. simpl. lia.
  - rewrite IH, counter_get_incr, occurrences_cons. lia.
Qed.

Lemma counter_get_Counter (k : string) (l : list string) :
  counter_get k (Counter l) = occurrences k l.
Proof. unfold Counter. rewrite counter_get_foldl. reflexivity. Qed.

Lemma counter_incr_keys (k : string) (c : list (string * nat)) :
  map fst (counter_incr k c) = if bool_decide (k ∈ map fst c) then map fst c else map fst c ++ [k].
Proof.
  induction c as [|[k0 n] c IH]; simpl; [reflexivity|].
  destruct (String.eqb_spec k k0) as [->|Hne]; simpl.
  - rewrite bool_decide_eq_true_2 by left. reflexivity.
  - rewrite IH. destruct (bool_decide (k ∈ map fst c)) eqn:E.
    + apply bool_decide_eq_true in E. rewrite bool_decide_eq_true_2 by (right; exact E).
      reflexivity.
    + apply bool_decide_eq_false in E. rewrite bool_decide_eq_false_2; [reflexivity|].
      intros H. apply elem_of_cons in H as [H|H]; contradiction.
Qed.

Lemma counter_incr_wf (k : string) (c : list (string * nat)) :
  counter_wf c -> counter_wf (counter_incr k c).
Proof.
  intros [Hk Hp]. split.
  - rewrite counter_incr_keys. case_bool_decide as Hin; [exact Hk|].
    apply NoDup_app. split; [exact Hk|]. split; [|apply NoDup_singleton].
    intros x Hx Hx'. apply list_elem_of_singleton in Hx'. subst x. contradiction.
  - clear Hk. induction Hp as [|[k0 n] c Hn Hp IH]; simpl.
    + repeat constructor.
    + destruct (String.eqb k k0); constructor; simpl in *; auto; lia.
Qed.

Lemma Counter_wf (l : list string) : counter_wf (Counter l).
Proof.
  unfold Counter.
  assert (H : forall c, counter_wf c -> counter_wf (foldl (fun c k => counter_incr k c) c l)).
  { induction l as [|x l IH]; intros c Hc; simpl; [exact Hc|].
    apply IH, counter_incr_wf, Hc. }
  apply H. split; constructor.
Qed.

Lemma elem_of_counter (k : string) (n : nat) (c : list (string * nat)) :
  counter_wf c -> ((k, n) ∈ c <-> counter_get k c = n /\ (0 < n)%nat).
Proof.
  intros [Hk Hp]. induction c as [|[k0 m] c IH]; simpl.
  - split; [intros H; inversion H | intros [<- H]; lia].
  - apply NoDup_cons in Hk as [Hk0 Hk]. apply Forall_cons in Hp as [Hm Hp]. simpl in *.
    rewrite elem_of_cons, (IH Hk Hp).
    destruct (String.eqb_spec k k0) as [->|Hne].
    + split.
      * intros [E|[E Hn]]; [inversion E; subst; auto|].
        exfalso. apply Hk0. apply elem_of_map. exists (k0, n). split; [reflexivity|].
        apply (IH Hk Hp). auto.
      * intros [<- _]. left. reflexivity.
    + split; [intros [E|H]; [congruence | exact H] | auto].
Qed.

Lemma insert_desc_perm (x : string * nat) (l : list (string * nat)) :
  insert_desc x l ≡ₚ x :: l.
Proof.
  induction l as [|y l IH]; simpl; [reflexivity|].
  destruct (snd y <=? snd x)%nat; [reflexivity|].
  rewrite IH. apply Permutation_swap.
Qed.

Lemma sort_desc_perm (l : list (string * nat)) : sort_desc l ≡ₚ l.
Proof.
  unfold sort_desc. induction l as [|x l IH]; simpl; [reflexivity|].
  rewrite insert_desc_perm, IH. reflexivity.
Qed.

Lemma insert_desc_descending (x : string * nat) (l : list (string * nat)) :
  descending l -> descending (insert_desc x l).
Proof.
  unfold descending. induction 1 as [|y l Hl IH Hy]; simpl.
  - repeat constructor.
  - destruct (Nat.leb_spec (snd y) (snd x)) as [Hle|Hgt].
    + constructor; [constructor; assumption|].
      constructor; [exact Hle|].
      eapply Forall_impl; [exact Hy|]. simpl. intros z Hz. lia.
    + constructor; [exact IH|].
      rewrite insert_desc_perm. constructor; [lia | exact Hy].
Qed.

Lemma sort_desc_descending (l : list (string * nat)) : descending (sort_desc l).
Proof.
  unfold sort_desc. induction l as [|x l IH]; simpl; [constructor|].
  apply insert_desc_descending, IH.
Qed.

(** ** Geographic ranking *)

#[local] Arguments get_countries_from_string : simpl never.

Lemma occurrences_collected (k : string) (l : list Row) (acc : list string) :
  occurrences k (foldl (fun acc cs => acc ++ get_countries_from_string (Some cs))
                       acc (dropna (map countries_for_analysis l)))
  = (occurrences k acc
     + sum_list (map (fun r => occurrences k (get_countries_from_string (countries r))) l))%nat.
Proof.
  revert acc. induction l as [|r l IH]; intros acc; [simpl; lia|].
  rewrite !map_cons.
  change (sum_list (?x :: ?t)) with (x + sum_list t)%nat.
  unfold countries_for_analysis at 1.
  destruct (countries r) as [cs|].
  - change (dropna (Some cs :: map countries_for_analysis l))
      with (cs :: dropna (map countries_for_analysis l)).
    simpl foldl. rewrite IH, occurrences_app. lia.
  - change (dropna (None :: map countries_for_analysis l))
      with (dropna (map countries_for_analysis l)).
    rewrite IH. change (occurrences k (get_countries_from_string None)) with 0%nat.
    lia.
Qed.

Lemma count_countries_occurrences (k : string) (l : list Row) :
  counter_get k (count_countries l)
  = sum_list (map (fun r => occurrences k (get_countries_from_string (countries r))) l).
Proof.
  unfold count_countries. rewrite counter_get_Counter, occurrences_collected. reflexivity.
Qed.

Lemma flag_le_occurrences (k : string) (P : list string) :
  ((if bool_decide (k ∈ P) then 1 else 0) <= occurrences k P)%nat.
Proof.
  induction P as [|x P IH]; [reflexivity|].
  rewrite occurrences_cons. destruct (String.eqb_spec k x) as [->|Hne].
  - destruct (bool_decide (x ∈ x :: P)); lia.
  - destruct (bool_decide (k ∈ x :: P)) eqn:E; [|lia].
    apply bool_decide_eq_true in E. apply elem_of_cons in E as [E|E]; [contradiction|].
    rewrite bool_decide_eq_true_2 in IH by exact E. lia.
Qed.

Lemma flag_eq_occurrences (k : string) (P : list string) :
  NoDup P -> occurrences k P = if bool_decide (k ∈ P) then 1%nat else 0%nat.
Proof.
  induction 1 as [|x P Hx HP IH]; [reflexivity|].
  rewrite occurrences_cons, IH. destruct (String.eqb_spec k x) as [->|Hne].
  - rewrite (bool_decide_eq_false_2 _ Hx), bool_decide_eq_true_2 by left. reflexivity.
  - destruct (bool_decide (k ∈ P)) eqn:E.
    + apply bool_decide_eq_true in E. rewrite bool_decide_eq_true_2 by (right; exact E).
      reflexivity.
    + apply bool_decide_eq_false in E. rewrite bool_decide_eq_false_2; [reflexivity|].
      intros H. apply elem_of_cons in H as [H|H]; contradiction.
Qed.

Lemma sum_list_map_le {A} (f g : A -> nat) (l : list A) :
  (forall x, x ∈ l -> (f x <= g x)%nat) -> (sum_list (map f l) <= sum_list (map g l))%nat.
Proof.
  induction l as [|a l IH]; intros H; simpl; [lia|].
  assert (f a <= g a)%nat by (apply H; left).
  assert (sum_list (map f l) <= sum_list (map g l))%nat
    by (apply IH; intros x Hx; apply H; right; exact Hx).
  lia.
Qed.

Lemma sum_list_map_eq {A} (f g : A -> nat) (l : list A) :
  (forall x, x ∈ l -> f x = g x) -> sum_list (map f l) = sum_list (map g l).
Proof.
  induction l as [|a l IH]; intros H; simpl; [reflexivity|].
  rewrite (H a) by left. rewrite IH; [reflexivity|].
  intros x Hx. apply H. right. exact Hx.
Qed.

(** C3, as the code has it. The count of a country in the geographic view
    is the number of times its name occurs among the parsed tokens of the
    filtered rows; it is at least the sum of the country's membership flag
    over these rows, and equal to it when no row repeats a name in its
    field. The ranking lists the counted names, each once with its count,
    largest count first, and the chart shows its first 15 entries. *)
Theorem count_countries_counts_tokens (filtered : list Row) :
  (forall c, counter_get c (count_countries filtered)
             = sum_list (map (fun r => occurrences c (get_countries_from_string (countries r)))
                             filtered))
  /\ (forall c, (sum_list (map (country_flag c) filtered)
                 <= counter_get c (count_countries filtered))%nat)
  /\ ((forall r, r ∈ filtered -> NoDup (get_countries_from_string (countries r))) ->
      forall c, counter_get c (count_countries filtered)
                = sum_list (map (country_flag c) filtered))
  /\ df_counts filtered ≡ₚ count_countries filtered
  /\ NoDup (map fst (df_counts filtered))
  /\ (forall c n, (c, n) ∈ df_counts filtered
                  <-> counter_get c (count_countries filtered) = n /\ (0 < n)%nat)
  /\ descending (df_counts filtered)
  /\ top_countries filtered = take 15 (df_counts filtered).
Proof.
  assert (Hwf : counter_wf (count_countries filtered)) by apply Counter_wf.
  split; [intros c; apply count_countries_occurrences|].
  split.
  { intros c. rewrite count_countries_occurrences. apply sum_list_map_le.
    intros r _. apply flag_le_occurrences. }
  split.
  { intros Hnd c. rewrite count_countries_occurrences. apply sum_list_map_eq.
    intros r Hr. unfold country_flag, countries_for_analysis.
    apply flag_eq_occurrences, Hnd, Hr. }
  split; [apply sort_desc_perm|].
  split.
  { unfold df_counts.
    rewrite (Permutation_map fst (sort_desc_perm (count_countries filtered))).
    apply Hwf. }
  split.
  { intros c n. unfold df_counts. rewrite (sort_desc_perm (count_countries filtered)).
    apply elem_of_counter, Hwf. }
  split; [apply sort_desc_descending | reflexivity].
Qed.

Lemma count_countries_counts_tokens_witness :
  (forall r, r ∈ example_rows -> NoDup (get_countries_from_string (countries r)))
  /\ counter_get "France" (count_countries example_rows)
     = sum_list (map (country_flag "France") example_rows).
Proof.
  assert (H : forall r, r ∈ example_rows -> NoDup (get_countries_from_string (countries r))).
  { intros r Hr. apply list_elem_of_In in Hr. simpl in Hr.
    destruct Hr as [<-|[<-|[<-|[]]]]; apply (bool_decide_unpack _); vm_compute; exact I. }
  split; [exact H|].
  apply (proj1 (proj2 (proj2 (count_countries_counts_tokens example_rows))) H).
Defined.

(** C3 fails as stated: one film whose field names France twice is counted
    twice for France, while its membership flag is 1. *)
Lemma count_countries_counts_duplicates :
  counter_get "France" (count_countries [entry 2020 (Some "France, France")]) = 2%nat
  /\ sum_list (map (country_flag "France") [entry 2020 (Some "France, France")]) = 1%nat
  /\ counter_get "France" (count_countries [entry 2020 (Some "France, France")])
     <> sum_list (map (country_flag "France") [entry 2020 (Some "France, France")]).
Proof. vm_compute. repeat split; try reflexivity. discriminate. Qed.

(** A producers cell that is present but empty is one producer with the
    empty name: the ranking is then not empty. *)
Example get_top_productoras_empty_text_cell :
  get_top_productoras FromNormalizadas
    [ {| title := None; director := None; year := 2021; countries := Some "Spain";
         section := None; productoras_normalizadas := Some "";
         productoras_consolidadas := None |} ] "Spain" 10
  = [("", 1%nat)].
Proof. vm_compute. reflexivity. Qed.

Lemma get_top_productoras_without_data_witness :
  producers producer_loaded = Some FromNormalizadas
  /\ (forall r, r ∈ filtered_df (df producer_loaded) default_widgets ->
                country_flag "Spain" r = 1%nat ->
                productoras_consolidadas_normalized FromNormalizadas r = None)
  /\ get_top_productoras FromNormalizadas
       (filtered_df (df producer_loaded) default_widgets) "Spain" 10 = []
  /\ producer_tab producer_loaded default_widgets "Spain" = ProducerInfo.
Proof.
  assert (H : forall r, r ∈ filtered_df (df producer_loaded) default_widgets ->
                country_flag "Spain" r = 1%nat ->
                productoras_consolidadas_normalized FromNormalizadas r = None).
  { intros r Hr. apply list_elem_of_In in Hr. vm_compute in Hr.
    destruct Hr as [<-|[<-|[]]]; vm_compute; [discriminate | reflexivity]. }
  split; [reflexivity|]. split; [exact H|].
  apply (get_top_productoras_without_data producer_loaded default_widgets
           FromNormalizadas "Spain" 10 eq_refl H).
Defined.

(** ** Producer normalizer *)

(** C9. Loading a sheet that has the countries column succeeds whatever
    producer columns it has. The canonical producers column is
    [productoras_normalizadas] when the sheet has that column (also when it
    has both), otherwise [productoras_consolidadas] when it has that one;
    with neither, no column is created and the producer tab shows the
    warning that the column was not found, for every selection. *)
Theorem producer_column_selected (d : DataFrame) :
  has_countries d = true ->
  exists L, load_data (Some d) = LoadOk L
    /\ (has_productoras_normalizadas d = true ->
        producers L = Some FromNormalizadas
        /\ forall r, productoras_consolidadas_normalized FromNormalizadas r
                     = productoras_normalizadas r)
    /\ (has_productoras_normalizadas d = false -> has_productoras_consolidadas d = true ->
        producers L = Some FromConsolidadas
        /\ forall r, productoras_consolidadas_normalized FromConsolidadas r
                     = productoras_consolidadas r)
    /\ (has_productoras_normalizadas d = false -> has_productoras_consolidadas d = false ->
        producers L = None
        /\ forall w country, producer_tab L w country = ProducerWarning).
Proof.
  intros Hc. unfold load_data. rewrite Hc. eexists. split; [reflexivity|].
  unfold producer_tab, producer_column. simpl.
  repeat split; try reflexivity; intros; repeat match goal with H : _ = _ |- _ => rewrite H end;
    reflexivity.
Qed.

Lemma producer_column_selected_witness :
  has_countries (sheet example_rows) = true
  /\ exists L, load_data (Some (sheet example_rows)) = LoadOk L
               /\ producers L = None
               /\ forall w country, producer_tab L w country = ProducerWarning.
Proof.
  split; [reflexivity|].
  destruct (producer_column_selected (sheet example_rows) eq_refl) as (L & HL & _ & _ & H).
  exists L. split; [exact HL|]. apply H; reflexivity.
Defined.

(** ** Percentage shares *)

Lemma Qsum_cons (x : Q) (l : list Q) : Qsum (x :: l) = (x + Qsum l)%Q.
Proof. reflexivity. Qed.

Section Shares.

Local Open Scope Q_scope.

Variable fl : Q -> Q.
Variable u : Q.
Hypothesis u_nonneg : 0 <= u.
Hypothesis u_le_1 : u <= 1.
Hypothesis fl_rounds : rounds_within fl u.

Lemma fl_bounds (x : Q) : 0 <= x -> x - u * x <= fl x /\ fl x <= x + u * x.
Proof.
  intros Hx. pose proof (fl_rounds x) as H.
  rewrite (Qabs_pos x Hx) in H. apply (proj1 (Qabs_Qle_condition _ _)) in H as [H1 H2].
  split; lra.
Qed.

(** One share against its exact value. *)
Lemma share_error (a : Q) :
  0 <= a -> Qabs (fl (fl a * 100) - 100 * a) <= 100 * (2 * u + u * u) * a.
Proof.
  intros Ha. destruct (fl_bounds a Ha) as [H1 H2].
  assert (Hp : 0 <= fl a) by nra.
  assert (Hb : 0 <= fl a * 100) by lra.
  destruct (fl_bounds _ Hb) as [H3 H4].
  apply (proj2 (Qabs_Qle_condition _ _)). split; nra.
Qed.

Lemma shares_error (t : Q) (counts : list nat) :
  0 < t ->
  Qabs (Qsum (map (fun c => fl (fl (Qnat c / t) * 100)) counts)
        - 100 * Qsum (map (fun c => Qnat c / t) counts))
  <= 100 * (2 * u + u * u) * Qsum (map (fun c => Qnat c / t) counts).
Proof.
  intros Ht. induction counts as [|c counts IH].
  - change (Qsum (map _ [])) with 0. apply (proj2 (Qabs_Qle_condition _ _)). split; lra.
  - rewrite !map_cons, !Qsum_cons.
    assert (Ha : 0 <= Qnat c / t).
    { apply Qle_shift_div_l; [exact Ht|]. unfold Qnat.
      rewrite Qmult_0_l. change 0 with (inject_Z 0). rewrite <- Zle_Qle. lia. }
    pose proof (share_error _ Ha) as Hs.
    apply (proj1 (Qabs_Qle_condition _ _)) in Hs as [Hs1 Hs2].
    apply (proj1 (Qabs_Qle_condition _ _)) in IH as [IH1 IH2].
    apply (proj2 (Qabs_Qle_condition _ _)). split; lra.
Qed.

End Shares.

Lemma Qsum_quotients (t : Q) (counts : list nat) :
  (Qsum (map (fun c => Qnat c / t) counts) == Qnat (sum_list counts) / t)%Q.
Proof.
  induction counts as [|c counts IH].
  - change (0 == 0 / t)%Q. unfold Qdiv. rewrite Qmult_0_l. reflexivity.
  - rewrite map_cons, Qsum_cons, IH.
    change (sum_list (c :: counts)) with (c + sum_list counts)%nat.
    unfold Qnat. rewrite Nat2Z.inj_add, inject_Z_plus.
    unfold Qdiv. ring.
Qed.

Lemma percent_cells_defined (fl : Q -> Q) (t : nat) (counts : list nat) :
  t <> 0%nat ->
  map (percent_cell fl t) counts
  = map Some (map (fun c => fl (fl (Qnat c / Qnat t) * 100)%Q) counts).
Proof.
  intros Ht. rewrite map_map. apply map_ext. intros c. unfold percent_cell.
  destruct (Nat.eqb_spec t 0); [contradiction | reflexivity].
Qed.

Lemma lookup_map {A B} (f : A -> B) (l : list A) (i : nat) :
  map f l !! i = f <$> l !! i.
Proof. apply (list_lookup_fmap f l i). Qed.

Lemma df_line_row (filtered : list Row) (selected : list string) (i : nat) (y : Z)
    (counts : list nat) :
  df_line filtered selected !! i = Some (y, counts) ->
  counts = map (fun c => sum_list (map (country_flag c)
                                       (filter (fun r => year r = y) filtered))) selected.
Proof.
  unfold df_line. rewrite lookup_map. intros H.
  destruct (groupby_year filtered !! i) as [[y' g]|] eqn:E; [|discriminate].
  simpl in H. inversion H; subst.
  apply list_elem_of_lookup_2, elem_of_groupby_year in E as (_ & ->). reflexivity.
Qed.

(** C7. Let the float operations round with relative error at most [u]
    (0 <= u <= 1). For a year of the temporal table whose selected countries
    have a nonzero total, every percentage is a number, the share of a
    country being its flag sum of the year divided by the row total, times
    100, and the shares of the year add up to 100 up to the rounding:
    the distance is at most 100 (2u + u^2), which is 0 in exact arithmetic. *)
Theorem percent_shares_sum_to_100
    (fl : Q -> Q) (u : Q) (filtered : list Row) (selected : list string)
    (i : nat) (y : Z) (counts : list nat) :
  (0 <= u)%Q -> (u <= 1)%Q -> rounds_within fl u ->
  df_line filtered selected !! i = Some (y, counts) ->
  sum_list counts <> 0%nat ->
  exists shares : list Q,
    df_percent fl filtered selected !! i = Some (y, map Some shares)
    /\ counts = map (fun c => sum_list (map (country_flag c)
                                            (filter (fun r => year r = y) filtered)))
                    selected
    /\ shares = map (fun c => fl (fl (Qnat c / Qnat (sum_list counts)) * 100)%Q) counts
    /\ (Qabs (Qsum shares - 100) <= 100 * (2 * u + u * u))%Q.
Proof.
  intros Hu0 Hu1 Hfl Hline Ht.
  exists (map (fun c => fl (fl (Qnat c / Qnat (sum_list counts)) * 100)%Q) counts).
  split.
  { unfold df_percent. rewrite lookup_map, Hline. simpl.
    rewrite percent_cells_defined by exact Ht. reflexivity. }
  split; [eapply df_line_row; exact Hline|].
  split; [reflexivity|].
  assert (Hpos : (0 < Qnat (sum_list counts))%Q).
  { unfold Qnat. change 0%Q with (inject_Z 0). rewrite <- Zlt_Qlt. lia. }
  pose proof (shares_error fl u Hu0 Hu1 Hfl _ counts Hpos) as H.
  rewrite Qsum_quotients in H.
  assert (E : (Qnat (sum_list counts) / Qnat (sum_list counts) == 1)%Q)
    by (field; lra).
  rewrite E, !Qmult_1_r in H. exact H.
Qed.

Lemma exact_rounds_within : rounds_within (fun x => x) 0.
Proof.
  intros x. assert (E : (x - x == 0)%Q) by ring.
  rewrite E, Qmult_0_l. apply Qle_refl.
Qed.

Lemma percent_shares_sum_to_100_witness :
  (0 <= 0)%Q /\ (0 <= 1)%Q /\ rounds_within (fun x => x) 0
  /\ df_line example_rows ["France"; "Usa"] !! 0%nat = Some (2020%Z, [2%nat; 1%nat])
  /\ sum_list [2%nat; 1%nat] <> 0%nat
  /\ exists shares : list Q,
       df_percent (fun x => x) example_rows ["France"; "Usa"] !! 0%nat
       = Some (2020%Z, map Some shares)
       /\ (Qabs (Qsum shares - 100) <= 100 * (2 * 0 + 0 * 0))%Q.
Proof.
  assert (H0 : (0 <= 0)%Q) by apply Qle_refl.
  assert (H1 : (0 <= 1)%Q) by discriminate.
  assert (Hl : df_line example_rows ["France"; "Usa"] !! 0%nat
               = Some (2020%Z, [2%nat; 1%nat])) by (vm_compute; reflexivity).
  assert (Hs : sum_list [2%nat; 1%nat] <> 0%nat) by discriminate.
  split; [exact H0|]. split; [exact H1|]. split; [exact exact_rounds_within|].
  split; [exact Hl|]. split; [exact Hs|].
  destruct (percent_shares_sum_to_100 (fun x => x) 0 example_rows ["France"; "Usa"]
              0%nat 2020%Z [2%nat; 1%nat] H0 H1 exact_rounds_within Hl Hs)
    as (shares & Hp & _ & _ & Hb).
  exists shares. split; [exact Hp | exact Hb].
Defined.

(** The means of the two tables, from their numerators and denominators. *)
Lemma avg_countries_from_parts (fl : Q -> Q) (filtered : list Row) :
  avg_countries fl filtered
  = map (fun e => (fst e, fl (Qnat (fst (snd e)) / Qnat (snd (snd e)))%Q))
        (avg_countries_parts filtered)
  /\ avg_countries_with_data fl filtered
     = map (fun e => (fst e, fl (Qnat (fst (snd e)) / Qnat (snd (snd e)))%Q))
           (avg_countries_with_data_parts filtered).
Proof.
  unfold avg_countries, avg_countries_with_data, avg_countries_parts,
    avg_countries_with_data_parts, num_countries_by_year.
  rewrite !map_map. split; reflexivity.
Qed.

(** * Further properties of the code *)

(** ** Characters *)

Ltac each_char c :=
  destruct c as [[|] [|] [|] [|] [|] [|] [|] [|]]; vm_compute; try reflexivity.

Lemma is_cased_upper c : PyStr.is_cased (PyStr.upper c) = PyStr.is_cased c.
Proof. each_char c. Qed.

Lemma is_cased_lower c : PyStr.is_cased (PyStr.lower c) = PyStr.is_cased c.
Proof. each_char c. Qed.







Lemma is_upper_lower c : PyStr.is_upper (PyStr.lower c) = false.
Proof. each_char c. Qed.


Lemma is_upper_cased c : PyStr.is_upper c = true -> PyStr.is_cased c = true.
Proof. unfold PyStr.is_cased. intros ->. reflexivity. Qed.

(** ** Trimming and title-casing *)














Lemma split_comma_comma_free s :
  Forall (fun t => comma_free t = true) (PyStr.split_comma s).
Proof.
  unfold comma_free. induction s as [|c s IH]; simpl.
  - repeat constructor.
  - destruct (Ascii.eqb c ",") eqn:E; [constructor; [reflexivity | exact IH]|].
    destruct (PyStr.split_comma s) as [|t ts].
    + repeat constructor. simpl. rewrite E. reflexivity.
    + inversion IH; subst. constructor; [|assumption]. simpl. rewrite E. assumption.
Qed.


(** A parsed name is the title-cased trimming of a non-blank token. *)
Lemma parsed_name_shape (field : cell) (name : string) :
  name ∈ get_countries_from_string field ->
  exists t, name = PyStr.title (PyStr.strip t) /\ PyStr.strip t <> EmptyString
            /\ comma_free t = true.
Proof.
  rewrite get_countries_from_string_eq_spec. destruct field as [s|]; simpl.
  - intros H. apply elem_of_map in H as (x & -> & H).
    apply list_elem_of_filter in H as [Hx H].
    apply elem_of_map in H as (t & -> & Ht). exists t. split; [reflexivity|].
    split; [exact Hx|].
    pose proof (split_comma_comma_free s) as Hall.
    rewrite Forall_forall in Hall. apply Hall, Ht.
  - intros H. inversion H.
Qed.




(** ** The initial selection of countries *)

Lemma title_from_no_upper_after_cased b s :
  no_upper_after_cased b (PyStr.title_from b s) = true.
Proof.
  revert b. induction s as [|c s IH]; intros b; simpl; [reflexivity|].
  destruct (PyStr.is_cased c) eqn:Ec; simpl.
  - destruct b; simpl.
    + rewrite is_upper_lower, is_cased_lower, Ec. apply IH.
    + rewrite is_cased_upper, Ec. apply IH.
  - rewrite Ec. rewrite IH.
    destruct (PyStr.is_upper c) eqn:Eu; [|rewrite andb_false_r; reflexivity].
    apply is_upper_cased in Eu. congruence.
Qed.

Lemma no_upper_after_cased_weaken b s :
  no_upper_after_cased b s = true -> no_upper_after_cased false s = true.
Proof.
  destruct s as [|c s]; simpl; [auto|]. intros H.
  apply andb_true_iff in H as [_ H]. exact H.
Qed.

Lemma no_upper_after_cased_no_USA b s :
  no_upper_after_cased b s = true -> PyStr.contains s "USA" = false.
Proof.
  revert b. induction s as [|c s IH]; intros b H; [reflexivity|].
  simpl in H. apply andb_true_iff in H as [_ H].
  change (PyStr.contains (String c s) "USA")
    with (PyStr.startswith (String c s) "USA" || PyStr.contains s "USA").
  rewrite (IH _ H), orb_false_r.
  change (PyStr.startswith (String c s) "USA")
    with (Ascii.eqb "U" c && PyStr.startswith s "SA").
  destruct (Ascii.eqb_spec "U" c) as [<-|_]; [|reflexivity].
  destruct s as [|c' s']; [reflexivity|].
  change (PyStr.startswith (String c' s') "SA")
    with (Ascii.eqb "S" c' && PyStr.startswith s' "A").
  destruct (Ascii.eqb_spec "S" c') as [<-|_]; [|reflexivity].
  vm_compute in H. discriminate H.
Qed.

Lemma parsed_name_no_USA (field : cell) (name : string) :
  name ∈ get_countries_from_string field -> PyStr.contains name "USA" = false.
Proof.
  intros H. apply parsed_name_shape in H as (t & -> & _).
  eapply no_upper_after_cased_no_USA, title_from_no_upper_after_cased.
Qed.

Lemma filter_ext_elem {A} (P Q : A -> Prop) `{!forall x, Decision (P x)}
    `{!forall x, Decision (Q x)} (l : list A) :
  (forall x, x ∈ l -> (P x <-> Q x)) -> filter P l = filter Q l.
Proof.
  induction l as [|a l IH]; intros Hext; [reflexivity|].
  rewrite !filter_cons, IH by (intros x Hx; apply Hext; right; exact Hx).
  assert (Ha : P a <-> Q a) by (apply Hext; left).
  destruct (decide (P a)), (decide (Q a)); tauto.
Qed.

(** X2. No name of the vocabulary contains the text "USA", because
    title-casing leaves no upper-case letter directly after a letter
    ("USA" is stored as "Usa"). The pattern "USA" of the initial selection
    of countries therefore never selects a country: the selection is the one
    that the other five patterns give. *)
Theorem default_countries_never_match_USA (l : list Row) :
  (forall c, c ∈ unique_countries l -> PyStr.contains c "USA" = false)
  /\ default_countries (unique_countries l)
     = filter (fun c => existsb (fun x => PyStr.contains c x) live_patterns)
              (unique_countries l).
Proof.
  assert (H : forall c, c ∈ unique_countries l -> PyStr.contains c "USA" = false).
  { intros c Hc. apply unique_countries_spec in Hc as (r & _ & Hc).
    eapply parsed_name_no_USA, Hc. }
  split; [exact H|].
  unfold default_countries. apply filter_ext_elem.
  intros c Hc. unfold live_patterns.
  change (existsb (fun x => PyStr.contains c x)
            ["Spain"; "France"; "USA"; "Italy"; "United Kingdom"; "Germany"])
    with (PyStr.contains c "Spain" || (PyStr.contains c "France"
          || (PyStr.contains c "USA" || existsb (fun x => PyStr.contains c x)
                                           ["Italy"; "United Kingdom"; "Germany"]))).
  change (existsb (fun x => PyStr.contains c x)
            ["Spain"; "France"; "Italy"; "United Kingdom"; "Germany"])
    with (PyStr.contains c "Spain" || (PyStr.contains c "France"
          || existsb (fun x => PyStr.contains c x)
                     ["Italy"; "United Kingdom"; "Germany"])).
  rewrite (H c Hc). reflexivity.
Qed.

Lemma default_countries_never_match_USA_witness :
  "Usa" ∈ unique_countries example_rows
  /\ PyStr.contains "Usa" "USA" = false
  /\ default_countries (unique_countries example_rows) = ["France"].
Proof.
  assert (H : "Usa" ∈ unique_countries example_rows)
    by (apply (bool_decide_unpack _); vm_compute; exact I).
  split; [exact H|].
  split; [apply (proj1 (default_countries_never_match_USA example_rows) _ H)|].
  vm_compute. reflexivity.
Defined.

(** ** Country columns *)

Lemma country_flag_1 (c : string) (r : Row) :
  country_flag c r = 1%nat <-> c ∈ get_countries_from_string (countries r).
Proof.
  unfold country_flag, countries_for_analysis.
  case_bool_decide as H; split; intros H'; try done.
Qed.

Lemma country_flag_0 (c : string) (r : Row) :
  country_flag c r = 0%nat <-> c ∉ get_countries_from_string (countries r).
Proof.
  unfold country_flag, countries_for_analysis.
  case_bool_decide as H; split; intros H'; try done.
Qed.

Lemma sum_list_pos_elem {A} (f : A -> nat) (l : list A) :
  (1 <= sum_list (map f l))%nat <-> exists x, x ∈ l /\ (1 <= f x)%nat.
Proof.
  induction l as [|a l IH]; simpl.
  - split; [lia | intros (x & H & _); inversion H].
  - split.
    + intros H. destruct (f a) eqn:E.
      * destruct (proj1 IH) as (x & Hx & Hf); [simpl in H; lia|].
        exists x. split; [right; exact Hx | exact Hf].
      * exists a. split; [left | lia].
    + intros (x & Hx & Hf). apply elem_of_cons in Hx as [->|Hx]; [lia|].
      assert (1 <= sum_list (map f l))%nat by (apply IH; eauto). lia.
Qed.

(** X3. The cell of a row in a country column is 1 when the country is
    among the parsed names of the row and 0 otherwise. A country has a
    column exactly when the flag is set in at least one row of the sheet,
    so no column is all zero; and [total_movies] of a row of the sheet is 0
    exactly when the row has no parsed country. *)
Theorem country_columns (l : list Row) :
  (forall c r, (country_flag c r = 1%nat /\ c ∈ get_countries_from_string (countries r))
               \/ (country_flag c r = 0%nat /\ c ∉ get_countries_from_string (countries r)))
  /\ (forall c, c ∈ unique_countries l <-> (1 <= sum_list (map (country_flag c) l))%nat)
  /\ (forall r, r ∈ l ->
        (total_movies (unique_countries l) r = 0%nat
         <-> get_countries_from_string (countries r) = [])).
Proof.
  split; [|split].
  - intros c r. destruct (decide (c ∈ get_countries_from_string (countries r))) as [H|H].
    + left. split; [apply country_flag_1, H | exact H].
    + right. split; [apply country_flag_0, H | exact H].
  - intros c. rewrite unique_countries_spec, sum_list_pos_elem. split.
    + intros (r & Hr & Hc). exists r. split; [exact Hr|].
      apply country_flag_1 in Hc. rewrite Hc. lia.
    + intros (r & Hr & Hc). exists r. split; [exact Hr|].
      apply country_flag_1. unfold country_flag in *. case_bool_decide; [reflexivity | lia].
  - intros r Hr. rewrite (total_movies_distinct l r Hr).
    unfold countries_for_analysis.
    destruct (get_countries_from_string (countries r)) as [|a P].
    + rewrite list_to_set_nil, size_empty. tauto.
    + split; [|discriminate]. intros H. exfalso.
      apply size_empty_iff in H.
      assert (Ha : a ∈ (list_to_set (a :: P) : gset string))
        by (apply elem_of_list_to_set; left).
      rewrite H in Ha. apply not_elem_of_empty in Ha. exact Ha.
Qed.

Lemma country_columns_witness :
  entry 2021 (Some "") ∈ example_rows
  /\ (total_movies (unique_countries example_rows) (entry 2021 (Some "")) = 0%nat
      <-> get_countries_from_string (countries (entry 2021 (Some ""))) = []).
Proof.
  assert (H : entry 2021 (Some "") ∈ example_rows) by (right; right; left).
  split; [exact H|].
  apply (proj2 (proj2 (country_columns example_rows)) _ H).
Defined.

(** ** Groups of a year *)

Lemma insert_year_increasing (y : Z) (ys : list Z) :
  increasing ys -> increasing (insert_year y ys).
Proof.
  unfold increasing. induction 1 as [|y' ys Hys IH Hy']; simpl.
  - repeat constructor.
  - destruct (Z.ltb_spec y y') as [Hlt|Hge].
    + constructor; [constructor; assumption|].
      constructor; [exact Hlt|]. eapply Forall_impl; [exact Hy'|]. simpl. lia.
    + destruct (Z.eqb_spec y y') as [->|Hne]; [constructor; assumption|].
      constructor; [exact IH|].
      rewrite Forall_forall. intros x Hx. apply elem_of_insert_year in Hx as [->|Hx].
      * lia.
      * rewrite Forall_forall in Hy'. apply Hy', Hx.
Qed.

Lemma group_keys_increasing (l : list Row) : increasing (group_keys l).
Proof.
  unfold group_keys. induction l as [|r l IH]; simpl; [constructor|].
  apply insert_year_increasing, IH.
Qed.

Lemma increasing_NoDup (ys : list Z) : increasing ys -> NoDup ys.
Proof.
  induction 1 as [|y ys Hys IH Hy]; constructor; [|exact IH].
  intros Hin. rewrite Forall_forall in Hy. specialize (Hy y Hin). lia.
Qed.

Section Grouping.

(** Grouping the elements of a list by a key. *)
Context {A K : Type} `{EqDecision K} (key : A -> K).

Lemma filter_split_key (y : K) (ks : list K) (l : list A) :
  y ∉ ks ->
  filter (fun r => key r ∈ y :: ks) l
  ≡ₚ filter (fun r => key r = y) l ++ filter (fun r => key r ∈ ks) l.
Proof.
  intros Hy. induction l as [|r l IH]; [reflexivity|].
  rewrite !filter_cons.
  destruct (decide (key r = y)) as [E|E].
  - destruct (decide (key r ∈ y :: ks)) as [_|Hn]; [|exfalso; apply Hn; rewrite E; left].
    destruct (decide (key r ∈ ks)) as [Hn|_]; [rewrite E in Hn; contradiction|].
    simpl. rewrite IH. reflexivity.
  - destruct (decide (key r ∈ ks)) as [Hk|Hk].
    + destruct (decide (key r ∈ y :: ks)) as [_|Hn]; [|exfalso; apply Hn; right; exact Hk].
      rewrite IH. apply Permutation_middle.
    + destruct (decide (key r ∈ y :: ks)) as [Hn|_]; [|exact IH].
      apply elem_of_cons in Hn as [Hn|Hn]; contradiction.
Qed.

Lemma groups_of_keys (ks : list K) (l : list A) :
  NoDup ks ->
  concat (map (fun y => filter (fun r => key r = y) l) ks)
  ≡ₚ filter (fun r => key r ∈ ks) l.
Proof.
  induction 1 as [|y ks Hy Hks IH]; simpl.
  - induction l as [|r l IHl]; [reflexivity|].
    rewrite filter_cons. destruct (decide (key r ∈ [])) as [Hn|_]; [inversion Hn | exact IHl].
  - rewrite IH. symmetry. apply filter_split_key, Hy.
Qed.

End Grouping.

Lemma filter_all {A} (P : A -> Prop) `{!forall x, Decision (P x)} (l : list A) :
  (forall x, x ∈ l -> P x) -> filter P l = l.
Proof.
  induction l as [|a l IH]; intros Hall; [reflexivity|].
  rewrite filter_cons, IH by (intros x Hx; apply Hall; right; exact Hx).
  destruct (decide (P a)) as [_|Hn]; [reflexivity|]. exfalso. apply Hn, Hall. left.
Qed.

Lemma groupby_year_concat (l : list Row) : concat (map snd (groupby_year l)) ≡ₚ l.
Proof.
  unfold groupby_year. rewrite map_map. simpl.
  rewrite (groups_of_keys year) by (apply increasing_NoDup, group_keys_increasing).
  rewrite filter_all; [reflexivity|].
  intros r Hr. apply elem_of_group_keys. exists r. auto.
Qed.

(** X4. [groupby('year')] partitions the frame: the years of the groups are
    strictly increasing (each year once), no group is empty, a group holds
    rows of its year only, and the groups together are a rearrangement of
    the rows of the frame: every row is in exactly one group. *)
Theorem groupby_year_partitions (l : list Row) :
  increasing (map fst (groupby_year l))
  /\ (forall y g, (y, g) ∈ groupby_year l ->
        g <> [] /\ forall r, r ∈ g <-> r ∈ l /\ year r = y)
  /\ concat (map snd (groupby_year l)) ≡ₚ l.
Proof.
  split; [|split].
  - unfold groupby_year. rewrite map_map. simpl. rewrite map_id.
    apply group_keys_increasing.
  - intros y g Hg. apply elem_of_groupby_year in Hg as ((r & Hr & Hy) & ->). split.
    + intros E. assert (H : r ∈ filter (fun r => year r = y) l)
        by (apply list_elem_of_filter; auto).
      rewrite E in H. inversion H.
    + intros r'. rewrite list_elem_of_filter. tauto.
  - apply groupby_year_concat.
Qed.

Lemma groupby_year_partitions_witness :
  (2020%Z, [entry 2020 (Some "France, USA"); entry 2020 (Some "France")])
    ∈ groupby_year example_rows
  /\ [entry 2020 (Some "France, USA"); entry 2020 (Some "France")] <> [].
Proof.
  assert (H : (2020%Z, [entry 2020 (Some "France, USA"); entry 2020 (Some "France")])
                ∈ groupby_year example_rows) by (vm_compute; left).
  split; [exact H|].
  apply (proj1 (proj1 (proj2 (groupby_year_partitions example_rows)) _ _ H)).
Defined.

(** ** The two tables of means *)

Lemma num_countries_without_data (r : Row) :
  has_country_data r = false -> num_countries r = 0%nat.
Proof.
  unfold has_country_data, num_countries. destruct (countries_for_analysis r) as [x|];
    [|reflexivity].
  intros H. apply negb_false_iff, String.eqb_eq in H. subst x. reflexivity.
Qed.

Lemma sum_num_countries_with_data (g : list Row) :
  sum_list (map num_countries (filter (fun r => has_country_data r) g))
  = sum_list (map num_countries g).
Proof.
  induction g as [|r g IH]; [reflexivity|].
  rewrite filter_cons. destruct (has_country_data r) eqn:E.
  - destruct (decide (Is_true true)) as [_|Hn]; [|exfalso; apply Hn; exact I].
    simpl. rewrite IH. reflexivity.
  - destruct (decide (Is_true false)) as [[]|_].
    simpl. rewrite IH, (num_countries_without_data r E). reflexivity.
Qed.

Lemma length_with_and_without_data (g : list Row) :
  length g
  = (length (filter (fun r => has_country_data r) g)
     + length (filter (fun r => has_country_data r = false) g))%nat.
Proof.
  induction g as [|r g IH]; [reflexivity|].
  rewrite !filter_cons. destruct (has_country_data r) eqn:E.
  - destruct (decide (Is_true true)) as [_|Hn]; [|exfalso; apply Hn; exact I].
    destruct (decide (true = false)) as [Hn|_]; [discriminate|]. simpl. lia.
  - destruct (decide (Is_true false)) as [[]|_].
    destruct (decide (false = false)) as [_|Hn]; [|congruence]. simpl. lia.
Qed.

Lemma filter_year_with_data (y : Z) (l : list Row) :
  filter (fun r => year r = y) (filter (fun r => has_country_data r) l)
  = filter (fun r => has_country_data r) (filter (fun r => year r = y) l).
Proof. rewrite !list_filter_filter. apply list_filter_iff. intros r. tauto. Qed.

Lemma group_nonempty_length (y : Z) (g : list Row) (l : list Row) :
  (y, g) ∈ groupby_year l -> (0 < length g)%nat.
Proof.
  intros H. apply elem_of_groupby_year in H as ((r & Hr & Hy) & ->).
  assert (H : r ∈ filter (fun r => year r = y) l) by (apply list_elem_of_filter; auto).
  destruct (filter (fun r => year r = y) l); [inversion H | simpl; lia].
Qed.

(** X5. The table of means restricted to rows with country data (line 262)
    and the plotted table over all rows (line 295) have the same sum of
    countries for a year: a row without country data has [num_countries] 0.
    They differ in the number of rows they divide by, which in the plotted
    table is larger by the number of rows of the year without country data.
    No entry of either table divides by zero. *)
Theorem avg_countries_tables_compared (filtered : list Row) (y : Z) (s n : nat) :
  (y, (s, n)) ∈ avg_countries_with_data_parts filtered ->
  (0 < n)%nat
  /\ (y, (s, (n + length (filter (fun r => has_country_data r = false)
                                 (filter (fun r => year r = y) filtered)))%nat))
     ∈ avg_countries_parts filtered
  /\ forall y' s' n', (y', (s', n')) ∈ avg_countries_parts filtered -> (0 < n')%nat.
Proof.
  unfold avg_countries_with_data_parts, avg_countries_parts, num_countries_by_year.
  intros H. apply elem_of_map in H as ([y0 g] & E & Hg). simpl in E.
  unfold mean_parts in E. inversion E; subst y0 s n; clear E.
  split; [rewrite length_map; eapply group_nonempty_length, Hg|].
  split.
  - apply elem_of_groupby_year in Hg as ((r & Hr & Hy) & ->).
    apply list_elem_of_filter in Hr as [_ Hr].
    apply elem_of_map. exists (y, filter (fun r => year r = y) filtered). split.
    + simpl. unfold mean_parts. rewrite filter_year_with_data, sum_num_countries_with_data.
      rewrite !length_map. rewrite <- length_with_and_without_data. reflexivity.
    + apply elem_of_groupby_year. split; [exists r; auto | reflexivity].
  - intros y' s' n' H. apply elem_of_map in H as ([y0 g'] & E & Hg'). simpl in E.
    unfold mean_parts in E. inversion E; subst. rewrite length_map.
    eapply group_nonempty_length, Hg'.
Qed.

Lemma avg_countries_tables_compared_witness :
  (2020%Z, (2%nat, 1%nat))
    ∈ avg_countries_with_data_parts
        [entry 2020 (Some "France, USA"); entry 2020 None; entry 2020 (Some "")]
  /\ (2020%Z, (2%nat, 3%nat))
       ∈ avg_countries_parts
           [entry 2020 (Some "France, USA"); entry 2020 None; entry 2020 (Some "")].
Proof.
  assert (H : (2020%Z, (2%nat, 1%nat))
                ∈ avg_countries_with_data_parts
                    [entry 2020 (Some "France, USA"); entry 2020 None; entry 2020 (Some "")])
    by (vm_compute; left).
  split; [exact H|].
  exact (proj1 (proj2 (avg_countries_tables_compared _ _ _ _ H))).
Defined.

(** ** The initial range of years *)

Lemma foldl_min_spec (y : Z) (ys : list Z) :
  foldl Z.min y ys ∈ y :: ys /\ forall x, x ∈ y :: ys -> (foldl Z.min y ys <= x)%Z.
Proof.
  revert y. induction ys as [|z ys IH]; intros y; simpl.
  - split; [left|]. intros x Hx. apply list_elem_of_singleton in Hx. lia.
  - destruct (IH (Z.min y z)) as [Hin Hle]. split.
    + apply elem_of_cons in Hin as [Hin|Hin]; [|right; right; exact Hin].
      rewrite Hin. destruct (Z.min_spec y z) as [[_ ->]|[_ ->]]; [left | right; left].
    + intros x Hx. apply elem_of_cons in Hx as [->|Hx].
      * specialize (Hle (Z.min y z) ltac:(left)). lia.
      * apply elem_of_cons in Hx as [->|Hx].
        -- specialize (Hle (Z.min y z) ltac:(left)). lia.
        -- apply Hle. right. exact Hx.
Qed.

Lemma foldl_max_spec (y : Z) (ys : list Z) :
  foldl Z.max y ys ∈ y :: ys /\ forall x, x ∈ y :: ys -> (x <= foldl Z.max y ys)%Z.
Proof.
  revert y. induction ys as [|z ys IH]; intros y; simpl.
  - split; [left|]. intros x Hx. apply list_elem_of_singleton in Hx. lia.
  - destruct (IH (Z.max y z)) as [Hin Hle]. split.
    + apply elem_of_cons in Hin as [Hin|Hin]; [|right; right; exact Hin].
      rewrite Hin. destruct (Z.max_spec y z) as [[_ ->]|[_ ->]]; [right; left | left].
    + intros x Hx. apply elem_of_cons in Hx as [->|Hx].
      * specialize (Hle (Z.max y z) ltac:(left)). lia.
      * apply elem_of_cons in Hx as [->|Hx].
        -- specialize (Hle (Z.max y z) ltac:(left)). lia.
        -- apply Hle. right. exact Hx.
Qed.

(** X6. On a frame without rows the initial range of years cannot be
    computed ([int] of a missing minimum raises). Otherwise the range ends
    at the latest year of the frame, is not empty, spans at most ten years
    and lies within the years of the frame; with it and no restriction of
    the section, the filtered frame holds exactly the rows of the last ten
    years and is not empty. *)
Theorem default_year_range_last_ten_years (l : list Row) :
  match default_year_range l with
  | None => l = []
  | Some (lo, hi) =>
      (lo <= hi)%Z /\ (hi - lo <= 10)%Z
      /\ (forall r, r ∈ l -> (year r <= hi)%Z)
      /\ (exists r, r ∈ l /\ year r = hi)
      /\ (exists r, r ∈ l /\ (year r <= lo)%Z)
      /\ forall d w, rows d = l -> year_range w = (lo, hi) ->
           selected_section d w = "Todas" ->
           filtered_df d w <> []
           /\ forall r, r ∈ filtered_df d w <-> r ∈ l /\ (hi - 10 <= year r)%Z
  end.
Proof.
  unfold default_year_range, min_year, max_year.
  destruct l as [|r0 l]; [reflexivity|]. simpl map.
  remember (map year l) as ys eqn:Eys.
  destruct (foldl_min_spec (year r0) ys) as [Hmin_in Hmin].
  destruct (foldl_max_spec (year r0) ys) as [Hmax_in Hmax].
  set (lo0 := foldl Z.min (year r0) ys) in *.
  set (hi := foldl Z.max (year r0) ys) in *.
  assert (Hyears : forall x, x ∈ year r0 :: ys <-> exists r, r ∈ r0 :: l /\ year r = x).
  { intros x. subst ys. change (year r0 :: map year l) with (map year (r0 :: l)).
    rewrite elem_of_map. split; intros (r & H1 & H2); exists r; auto. }
  assert (Hle : (lo0 <= hi)%Z) by (apply Hmin, Hmax_in).
  assert (Hall : forall r, r ∈ r0 :: l -> (lo0 <= year r <= hi)%Z).
  { intros r Hr. assert (year r ∈ year r0 :: ys) by (apply Hyears; eauto).
    split; [apply Hmin | apply Hmax]; assumption. }
  apply Hyears in Hmax_in as (rmax & Hrmax & Emax).
  apply Hyears in Hmin_in as (rmin & Hrmin & Emin).
  split; [lia|]. split; [lia|].
  split; [intros r Hr; apply Hall, Hr|].
  split; [exists rmax; auto|].
  split; [exists rmin; split; [exact Hrmin | lia]|].
  intros d w Hd Hw Hs.
  assert (Hmem : forall r, r ∈ filtered_df d w <-> r ∈ r0 :: l /\ (hi - 10 <= year r)%Z).
  { intros r. rewrite filtered_df_filter, list_elem_of_filter, Hd. unfold satisfies.
    rewrite Hw, Hs. simpl. split.
    - intros [[[H1 H2] _] Hr]. split; [exact Hr | lia].
    - intros [Hr H1]. specialize (Hall r Hr). repeat split; auto; lia. }
  split; [|exact Hmem].
  intros E. assert (H : rmax ∈ filtered_df d w) by (apply Hmem; split; [exact Hrmax | lia]).
  rewrite E in H. inversion H.
Qed.

Lemma default_year_range_last_ten_years_witness :
  default_year_range example_rows = Some (2020%Z, 2021%Z)
  /\ rows (sheet example_rows) = example_rows
  /\ year_range (with_years (2020%Z, 2021%Z) default_widgets) = (2020%Z, 2021%Z)
  /\ selected_section (sheet example_rows) (with_years (2020%Z, 2021%Z) default_widgets)
     = "Todas"
  /\ filtered_df (sheet example_rows) (with_years (2020%Z, 2021%Z) default_widgets) <> [].
Proof.
  pose proof (default_year_range_last_ten_years example_rows) as H.
  assert (E : default_year_range example_rows = Some (2020%Z, 2021%Z)) by reflexivity.
  rewrite E in H. destruct H as (_ & _ & _ & _ & _ & H).
  split; [exact E|]. split; [reflexivity|]. split; [reflexivity|]. split; [reflexivity|].
  exact (proj1 (H (sheet example_rows) (with_years (2020%Z, 2021%Z) default_widgets)
                  eq_refl eq_refl eq_refl)).
Defined.

(** ** Monotonicity of the filter *)

Lemma filter_sublist_impl {A} (P Q : A -> Prop) `{!forall x, Decision (P x)}
    `{!forall x, Decision (Q x)} (l : list A) :
  (forall x, P x -> Q x) -> filter P l `sublist_of` filter Q l.
Proof.
  intros Himp. induction l as [|a l IH]; [constructor|].
  rewrite !filter_cons. destruct (decide (P a)) as [Hp|Hp].
  - destruct (decide (Q a)) as [_|Hq]; [|exfalso; apply Hq, Himp, Hp].
    apply sublist_skip, IH.
  - destruct (decide (Q a)); [apply sublist_cons, IH | exact IH].
Qed.

(** X7. Filtering keeps rows in the order of the sheet and adds none.
    Widening the range of years, or choosing "Todas" as the section, can
    only add rows; a range whose first year is after its last year gives the
    empty frame. *)
Theorem filtered_df_monotone (d : DataFrame) (w : Widgets) :
  filtered_df d w `sublist_of` rows d
  /\ (forall lo hi, (lo <= fst (year_range w))%Z -> (snd (year_range w) <= hi)%Z ->
        filtered_df d w `sublist_of` filtered_df d (with_years (lo, hi) w))
  /\ filtered_df d w `sublist_of` filtered_df d (with_section "Todas" w)
  /\ ((snd (year_range w) < fst (year_range w))%Z -> filtered_df d w = []).
Proof.
  rewrite !filtered_df_filter. split; [apply sublist_filter|]. split; [|split].
  all: simpl rows.
  - intros lo hi Hlo Hhi. rewrite filtered_df_filter. simpl rows.
    apply filter_sublist_impl.
    unfold satisfies, selected_section. simpl. intros r [[H1 H2] H3].
    split; [lia | exact H3].
  - apply filter_sublist_impl.
    unfold satisfies, selected_section. simpl. intros r [H1 _].
    split; [exact H1|]. left. destruct (has_section d); reflexivity.
  - intros Hempty. induction (rows d) as [|r l IH]; [reflexivity|].
    rewrite filter_cons. destruct (decide (satisfies d w r)) as [[H _]|_]; [lia | exact IH].
Qed.

Lemma filtered_df_monotone_witness :
  (2000 <= fst (year_range default_widgets))%Z
  /\ (snd (year_range default_widgets) <= 2030)%Z
  /\ filtered_df (sheet example_rows) default_widgets
     `sublist_of` filtered_df (sheet example_rows) (with_years (2000%Z, 2030%Z) default_widgets).
Proof.
  assert (H1 : (2000 <= fst (year_range default_widgets))%Z) by (simpl; lia).
  assert (H2 : (snd (year_range default_widgets) <= 2030)%Z) by (simpl; lia).
  split; [exact H1|]. split; [exact H2|].
  exact (proj1 (proj2 (filtered_df_monotone (sheet example_rows) default_widgets))
           2000%Z 2030%Z H1 H2).
Defined.

(** ** Totals of counters *)

Lemma counter_total_incr (k : string) (c : list (string * nat)) :
  counter_total (counter_incr k c) = S (counter_total c).
Proof.
  unfold counter_total. induction c as [|[k0 n] c IH]; simpl; [reflexivity|].
  destruct (String.eqb k k0); simpl; rewrite ?IH; lia.
Qed.

Lemma counter_total_Counter (l : list string) : counter_total (Counter l) = length l.
Proof.
  unfold Counter.
  assert (H : forall c, counter_total (foldl (fun c k => counter_incr k c) c l)
                        = (counter_total c + length l)%nat).
  { induction l as [|x l IH]; intros c; simpl; [lia|].
    rewrite IH, counter_total_incr. lia. }
  rewrite H. reflexivity.
Qed.

Lemma counter_total_perm (c c' : list (string * nat)) :
  c ≡ₚ c' -> counter_total c = counter_total c'.
Proof.
  unfold counter_total. induction 1; simpl; lia.
Qed.

Lemma collected_length (l : list Row) (acc : list string) :
  length (foldl (fun acc cs => acc ++ get_countries_from_string (Some cs))
                acc (dropna (map countries_for_analysis l)))
  = (length acc + sum_list (map num_countries l))%nat.
Proof.
  revert acc. induction l as [|r l IH]; intros acc; [simpl; lia|].
  rewrite !map_cons.
  change (sum_list (?x :: ?t)) with (x + sum_list t)%nat.
  unfold num_countries at 1. unfold countries_for_analysis at 1 3.
  destruct (countries r) as [cs|].
  - change (dropna (Some cs :: map countries_for_analysis l))
      with (cs :: dropna (map countries_for_analysis l)).
    simpl foldl. rewrite IH, length_app. lia.
  - change (dropna (None :: map countries_for_analysis l))
      with (dropna (map countries_for_analysis l)).
    rewrite IH. lia.
Qed.

(** X8. The counts of the geographic ranking add up to the sum of
    [num_countries] over the filtered rows: each parsed token of each row is
    counted once, under its country. *)
Theorem df_counts_total (filtered : list Row) :
  counter_total (df_counts filtered) = sum_list (map num_countries filtered)
  /\ counter_total (count_countries filtered) = sum_list (map num_countries filtered).
Proof.
  assert (H : counter_total (count_countries filtered)
              = sum_list (map num_countries filtered)).
  { unfold count_countries. rewrite counter_total_Counter, collected_length. reflexivity. }
  split; [|exact H].
  unfold df_counts. rewrite (counter_total_perm _ _ (sort_desc_perm _)). exact H.
Qed.

Lemma occurrences_pos (k : string) (P : list string) :
  (0 < occurrences k P)%nat <-> k ∈ P.
Proof.
  induction P as [|x P IH]; [split; [unfold occurrences; simpl; lia | intros H; inversion H]|].
  rewrite occurrences_cons, elem_of_cons.
  destruct (String.eqb_spec k x) as [->|Hne]; [split; [auto | lia]|].
  simpl. rewrite IH. split; [auto | intros [H|H]; [contradiction | exact H]].
Qed.

Lemma sum_list_pos_some {A} (f : A -> nat) (l : list A) :
  (0 < sum_list (map f l))%nat <-> exists x, x ∈ l /\ (0 < f x)%nat.
Proof. apply (sum_list_pos_elem f l). Qed.

(** X9. A country is listed in the geographic ranking exactly when it is
    among the parsed names of some filtered row; every listed country is a
    name of the vocabulary built at load time, so it has a flag column. *)
Theorem df_counts_countries (d : DataFrame) (w : Widgets) (c : string) :
  (c ∈ map fst (df_counts (filtered_df d w))
   <-> exists r, r ∈ filtered_df d w /\ c ∈ get_countries_from_string (countries r))
  /\ (c ∈ map fst (df_counts (filtered_df d w)) -> c ∈ unique_countries (rows d)).
Proof.
  assert (H : c ∈ map fst (df_counts (filtered_df d w))
              <-> exists r, r ∈ filtered_df d w
                            /\ c ∈ get_countries_from_string (countries r)).
  { assert (Hwf : counter_wf (count_countries (filtered_df d w))) by apply Counter_wf.
    unfold df_counts.
    rewrite (Permutation_map fst (sort_desc_perm (count_countries (filtered_df d w)))).
    rewrite elem_of_map. split.
    - intros ([c' n] & -> & Hin). simpl.
      apply (elem_of_counter c' n _ Hwf) in Hin as [Hn Hpos].
      rewrite count_countries_occurrences in Hn. rewrite <- Hn in Hpos.
      apply sum_list_pos_some in Hpos as (r & Hr & Hp).
      exists r. split; [exact Hr | apply occurrences_pos, Hp].
    - intros (r & Hr & Hc).
      exists (c, counter_get c (count_countries (filtered_df d w))).
      split; [reflexivity|]. apply (elem_of_counter _ _ _ Hwf).
      split; [reflexivity|]. rewrite count_countries_occurrences.
      apply sum_list_pos_some. exists r. split; [exact Hr | apply occurrences_pos, Hc]. }
  split; [exact H|].
  intros Hc. apply H in Hc as (r & Hr & Hc). apply unique_countries_spec.
  exists r. split; [|exact Hc].
  rewrite filtered_df_filter in Hr. apply list_elem_of_filter in Hr as [_ Hr]. exact Hr.
Qed.

Lemma df_counts_countries_witness :
  "France" ∈ map fst (df_counts (filtered_df (sheet example_rows) default_widgets))
  /\ "France" ∈ unique_countries (rows (sheet example_rows)).
Proof.
  assert (H : "France" ∈ map fst (df_counts (filtered_df (sheet example_rows) default_widgets)))
    by (apply (bool_decide_unpack _); vm_compute; exact I).
  split; [exact H|].
  exact (proj2 (df_counts_countries (sheet example_rows) default_widgets "France") H).
Defined.

(** ** The ranking of producers *)

Lemma get_top_productoras_most_common (src : producer_source) (l : list Row)
    (country : string) (n : nat) :
  get_top_productoras src l country n
  = most_common n (Counter (flagged_producers src l country)).
Proof. reflexivity. Qed.

Lemma most_common_sorted (n : nat) (c : list (string * nat)) :
  most_common n c ++ drop n (sort_desc c) = sort_desc c.
Proof. unfold most_common. apply take_drop. Qed.

Lemma most_common_elem (n : nat) (c : list (string * nat)) (p : string) (k : nat) :
  counter_wf c -> (p, k) ∈ most_common n c -> counter_get p c = k /\ (0 < k)%nat.
Proof.
  intros Hwf Hin. apply (elem_of_counter p k c Hwf).
  rewrite <- (sort_desc_perm c), <- (most_common_sorted n c).
  apply elem_of_app. left. exact Hin.
Qed.

Lemma most_common_dominates (n : nat) (c : list (string * nat)) (p p' : string) (k : nat) :
  counter_wf c -> (p, k) ∈ most_common n c -> p' ∉ map fst (most_common n c) ->
  (counter_get p' c <= k)%nat.
Proof.
  intros Hwf Hin Hout.
  destruct (counter_get p' c) as [|m] eqn:E; [lia|].
  assert (Hp' : (p', S m) ∈ sort_desc c).
  { rewrite (sort_desc_perm c). apply (elem_of_counter p' (S m) c Hwf). split; [exact E | lia]. }
  pose proof (sort_desc_descending c) as Hs. unfold descending in Hs.
  rewrite <- (most_common_sorted n c) in Hp', Hs.
  apply elem_of_app in Hp' as [Hp'|Hp'].
  - exfalso. apply Hout. apply elem_of_map. exists (p', S m). auto.
  - exact (StronglySorted_app_1_elem_of _ _ _ _ _ Hs Hin Hp').
Qed.

(** X10. The ranking returned by [get_top_productoras] has at most [n]
    entries, largest count first, and no producer twice; the count of a
    listed producer is the number of times its name occurs in the producer
    lists of the rows with the flag of the country, and no producer left out
    of the ranking occurs more often than a listed one. *)
Theorem get_top_productoras_ranking (src : producer_source) (l : list Row)
    (country : string) (n : nat) :
  (length (get_top_productoras src l country n) <= n)%nat
  /\ descending (get_top_productoras src l country n)
  /\ NoDup (map fst (get_top_productoras src l country n))
  /\ (forall p k, (p, k) ∈ get_top_productoras src l country n ->
        k = occurrences p (flagged_producers src l country) /\ (0 < k)%nat)
  /\ (forall p k p', (p, k) ∈ get_top_productoras src l country n ->
        p' ∉ map fst (get_top_productoras src l country n) ->
        (occurrences p' (flagged_producers src l country) <= k)%nat).
Proof.
  rewrite get_top_productoras_most_common.
  set (c := Counter (flagged_producers src l country)).
  assert (Hwf : counter_wf c) by apply Counter_wf.
  assert (Hget : forall p, counter_get p c = occurrences p (flagged_producers src l country))
    by (intros p; apply counter_get_Counter).
  pose proof (sort_desc_descending c) as Hs. unfold descending in Hs.
  rewrite <- (most_common_sorted n c) in Hs.
  split; [unfold most_common; rewrite length_take; lia|].
  split; [exact (StronglySorted_app_1_l _ _ _ Hs)|].
  split.
  { assert (Hnd : NoDup (map fst (sort_desc c)))
      by (rewrite (Permutation_map fst (sort_desc_perm c)); apply Hwf).
    rewrite <- (most_common_sorted n c), map_app in Hnd.
    apply NoDup_app in Hnd as [Hnd _]. exact Hnd. }
  split.
  - intros p k Hin. rewrite <- Hget. apply most_common_elem in Hin as [<- Hk]; auto.
  - intros p k p' Hin Hout. rewrite <- Hget. eapply most_common_dominates; eauto.
Qed.

Lemma get_top_productoras_ranking_witness :
  ("Kazak Productions", 1%nat) ∈ get_top_productoras FromNormalizadas producer_rows "France" 1
  /\ "Frakas Productions"
       ∉ map fst (get_top_productoras FromNormalizadas producer_rows "France" 1)
  /\ (occurrences "Frakas Productions" (flagged_producers FromNormalizadas producer_rows "France")
      <= 1)%nat.
Proof.
  assert (H1 : ("Kazak Productions", 1%nat)
                 ∈ get_top_productoras FromNormalizadas producer_rows "France" 1)
    by (vm_compute; left).
  assert (H2 : "Frakas Productions"
                 ∉ map fst (get_top_productoras FromNormalizadas producer_rows "France" 1))
    by (apply (bool_decide_unpack _); vm_compute; exact I).
  split; [exact H1|]. split; [exact H2|].
  exact (proj2 (proj2 (proj2 (proj2
           (get_top_productoras_ranking FromNormalizadas producer_rows "France" 1))))
           _ _ _ H1 H2).
Defined.

Lemma split_comma_nonempty s : PyStr.split_comma s <> [].
Proof.
  destruct s as [|c s]; simpl; [discriminate|].
  destruct (Ascii.eqb c ","); [discriminate|].
  destruct (PyStr.split_comma s); discriminate.
Qed.

Lemma productoras_lista_nil (src : producer_source) (r : Row) :
  productoras_lista src r = [] <-> productoras_consolidadas_normalized src r = None.
Proof.
  unfold productoras_lista.
  destruct (productoras_consolidadas_normalized src r) as [x|]; [|tauto].
  split; [|discriminate]. intros H. exfalso.
  destruct (PyStr.split_comma x) eqn:E; [exact (split_comma_nonempty x E) | discriminate H].
Qed.

Lemma collected_nil {A} (f : A -> list string) (l : list A) (acc : list string) :
  foldl (fun acc r => acc ++ f r) acc l = [] <-> acc = [] /\ forall r, r ∈ l -> f r = [].
Proof.
  revert acc. induction l as [|a l IH]; intros acc; simpl.
  - split; [intros H; split; [exact H | intros r Hr; inversion Hr] | tauto].
  - rewrite IH. split.
    + intros [H1 H2]. apply app_eq_nil in H1 as [H1 H1']. split; [exact H1|].
      intros r Hr. apply elem_of_cons in Hr as [->|Hr]; auto.
    + intros [H1 H2]. split.
      * rewrite H1, (H2 a) by left. reflexivity.
      * intros r Hr. apply H2. right. exact Hr.
Qed.

Lemma most_common_nil_iff (n : nat) (l : list string) :
  (0 < n)%nat -> (most_common n (Counter l) = [] <-> l = []).
Proof.
  intros Hn. split; [|intros ->; apply most_common_nil].
  intros H. unfold most_common in H.
  assert (Hs : sort_desc (Counter l) = []).
  { destruct (sort_desc (Counter l)) as [|x t]; [reflexivity|].
    destruct n; [lia | discriminate H]. }
  pose proof (counter_total_perm _ _ (sort_desc_perm (Counter l))) as Ht.
  rewrite Hs, counter_total_Counter in Ht. unfold counter_total in Ht. simpl in Ht.
  destruct l; [reflexivity | discriminate Ht].
Qed.

(** X11. With a producers column, the producer tab shows its "no data"
    message exactly when no filtered row with the flag of the selected
    country has a producers cell; as soon as one such row has a cell, also
    an empty text, the chart is shown. *)
Theorem producer_tab_info_iff (L : Loaded) (w : Widgets) (src : producer_source)
    (country : string) :
  producers L = Some src ->
  (producer_tab L w country = ProducerInfo
   <-> forall r, r ∈ filtered_df (df L) w -> country_flag country r = 1%nat ->
                 productoras_consolidadas_normalized src r = None).
Proof.
  intros Hsrc. unfold producer_tab. rewrite Hsrc.
  assert (E : get_top_productoras src (filtered_df (df L) w) country 10 = []
              <-> forall r, r ∈ filtered_df (df L) w -> country_flag country r = 1%nat ->
                            productoras_consolidadas_normalized src r = None).
  { rewrite get_top_productoras_most_common, most_common_nil_iff by lia.
    unfold flagged_producers. rewrite collected_nil. split.
    - intros [_ H] r Hr Hf. apply productoras_lista_nil, H, list_elem_of_filter. auto.
    - intros H. split; [reflexivity|]. intros r Hr.
      apply list_elem_of_filter in Hr as [Hf Hr]. apply productoras_lista_nil, H; auto. }
  rewrite <- E.
  destruct (get_top_productoras src (filtered_df (df L) w) country 10);
    split; congruence.
Qed.

Lemma producer_tab_info_iff_witness :
  producers producer_loaded = Some FromNormalizadas
  /\ producer_tab producer_loaded default_widgets "France" <> ProducerInfo.
Proof.
  split; [reflexivity|].
  intros H.
  pose proof (proj1 (producer_tab_info_iff producer_loaded default_widgets
                       FromNormalizadas "France" eq_refl) H) as Hall.
  specialize (Hall (hd (entry 0 None) producer_rows)).
  assert (H1 : hd (entry 0 None) producer_rows ∈ filtered_df (df producer_loaded) default_widgets)
    by (vm_compute; left).
  specialize (Hall H1 eq_refl). discriminate Hall.
Defined.

(** ** Sums over groups *)

Lemma sum_list_map_perm {A} (f : A -> nat) (l l' : list A) :
  l ≡ₚ l' -> sum_list (map f l) = sum_list (map f l').
Proof. induction 1; simpl; lia. Qed.

Lemma sum_list_map_app {A} (f : A -> nat) (l l' : list A) :
  sum_list (map f (l ++ l')) = (sum_list (map f l) + sum_list (map f l'))%nat.
Proof. induction l as [|a l IH]; simpl; lia. Qed.

Lemma sum_list_map_concat {A} (f : A -> nat) (gs : list (list A)) :
  sum_list (map f (concat gs)) = sum_list (map (fun g => sum_list (map f g)) gs).
Proof.
  induction gs as [|g gs IH]; simpl; [reflexivity|].
  rewrite sum_list_map_app, IH. reflexivity.
Qed.

Lemma sum_list_map_ones {A} (l : list A) : sum_list (map (fun _ => 1%nat) l) = length l.
Proof. induction l as [|a l IH]; simpl; lia. Qed.

Lemma sum_over_groups (f : Row -> nat) (l : list Row) :
  sum_list (map (fun g => sum_list (map f (snd g))) (groupby_year l))
  = sum_list (map f l).
Proof.
  rewrite <- (sum_list_map_perm f _ _ (groupby_year_concat l)), sum_list_map_concat.
  rewrite map_map. reflexivity.
Qed.

(** ** The histogram of co-productions *)

Lemma elem_of_insert_value (x v : nat) (vs : list nat) :
  x ∈ insert_value v vs <-> x = v \/ x ∈ vs.
Proof.
  induction vs as [|v' vs IH]; simpl.
  - rewrite list_elem_of_singleton. split; [auto|]. intros [H|H]; [exact H | inversion H].
  - destruct (Nat.ltb_spec v v') as [Hlt|Hge].
    + rewrite elem_of_cons. tauto.
    + destruct (Nat.eqb_spec v v') as [->|Hne].
      * rewrite elem_of_cons. tauto.
      * rewrite !elem_of_cons, IH. tauto.
Qed.

Lemma insert_value_sorted (v : nat) (vs : list nat) :
  StronglySorted lt vs -> StronglySorted lt (insert_value v vs).
Proof.
  induction 1 as [|v' vs Hvs IH Hv']; simpl.
  - repeat constructor.
  - destruct (Nat.ltb_spec v v') as [Hlt|Hge].
    + constructor; [constructor; assumption|].
      constructor; [exact Hlt|]. eapply Forall_impl; [exact Hv'|]. simpl. lia.
    + destruct (Nat.eqb_spec v v') as [->|Hne]; [constructor; assumption|].
      constructor; [exact IH|].
      rewrite Forall_forall. intros x Hx. apply elem_of_insert_value in Hx as [->|Hx].
      * lia.
      * rewrite Forall_forall in Hv'. apply Hv', Hx.
Qed.

Lemma value_keys_sorted (vals : list nat) : StronglySorted lt (foldr insert_value [] vals).
Proof.
  induction vals as [|v vals IH]; simpl; [constructor|]. apply insert_value_sorted, IH.
Qed.

Lemma elem_of_value_keys (x : nat) (vals : list nat) :
  x ∈ foldr insert_value [] vals <-> x ∈ vals.
Proof.
  induction vals as [|v vals IH]; simpl; [tauto|].
  rewrite elem_of_insert_value, IH, elem_of_cons. tauto.
Qed.

Lemma sorted_lt_NoDup (vs : list nat) : StronglySorted lt vs -> NoDup vs.
Proof.
  induction 1 as [|v vs Hvs IH Hv]; constructor; [|exact IH].
  intros Hin. rewrite Forall_forall in Hv. specialize (Hv v Hin). lia.
Qed.

Lemma sum_num_countries_of_value (v : nat) (l : list Row) :
  sum_list (map num_countries (filter (fun r => num_countries r = v) l))
  = (v * length (filter (fun r => num_countries r = v) l))%nat.
Proof.
  induction l as [|r l IH]; [simpl; lia|].
  rewrite filter_cons. destruct (decide (num_countries r = v)) as [E|E]; [|exact IH].
  simpl. rewrite IH, E. lia.
Qed.

Lemma rows_by_value (l : list Row) :
  concat (map (fun v => filter (fun r => num_countries r = v) l)
              (foldr insert_value [] (map num_countries l)))
  ≡ₚ l.
Proof.
  rewrite (groups_of_keys num_countries) by (apply sorted_lt_NoDup, value_keys_sorted).
  rewrite filter_all; [reflexivity|].
  intros r Hr. apply elem_of_value_keys, elem_of_map. exists r. auto.
Qed.

(** X12. The histogram of co-productions lists each number of countries
    that occurs among the filtered rows once, in increasing order, with the
    number of rows that have it, which is positive. The bars add up to the
    number of filtered rows, and weighted by their number of countries they
    add up to the sum of [num_countries]. *)
Theorem coprod_counts_histogram (filtered : list Row) :
  StronglySorted lt (map fst (coprod_counts filtered))
  /\ (forall v k, (v, k) ∈ coprod_counts filtered
                  <-> k = length (filter (fun r => num_countries r = v) filtered)
                      /\ (0 < k)%nat)
  /\ sum_list (map snd (coprod_counts filtered)) = length filtered
  /\ sum_list (map (fun e => (fst e * snd e)%nat) (coprod_counts filtered))
     = sum_list (map num_countries filtered).
Proof.
  unfold coprod_counts. split; [|split; [|split]].
  - rewrite map_map. simpl. rewrite map_id. apply value_keys_sorted.
  - intros v k. rewrite elem_of_map. split.
    + intros (v' & E & Hv'). inversion E; subst. split; [reflexivity|].
      apply elem_of_value_keys, elem_of_map in Hv' as (r & Hv & Hr).
      assert (H : r ∈ filter (fun r => num_countries r = v') filtered)
        by (apply list_elem_of_filter; auto).
      destruct (filter (fun r => num_countries r = v') filtered); [inversion H | simpl; lia].
    + intros [-> Hk]. exists v. split; [reflexivity|].
      apply elem_of_value_keys, elem_of_map.
      destruct (filter (fun r => num_countries r = v) filtered) as [|r t] eqn:E;
        [simpl in Hk; lia|].
      assert (H : r ∈ filter (fun r => num_countries r = v) filtered) by (rewrite E; left).
      apply list_elem_of_filter in H as [Hv Hr]. exists r. auto.
  - rewrite map_map. simpl.
    rewrite <- (sum_list_map_ones filtered).
    rewrite <- (sum_list_map_perm _ _ _ (rows_by_value filtered)), sum_list_map_concat.
    rewrite map_map. apply sum_list_map_eq. intros v _. rewrite sum_list_map_ones. reflexivity.
  - rewrite map_map. simpl.
    rewrite <- (sum_list_map_perm num_countries _ _ (rows_by_value filtered)),
      sum_list_map_concat, map_map.
    apply sum_list_map_eq. intros v _. rewrite sum_num_countries_of_value. reflexivity.
Qed.

(** ** Films with country data *)

Lemma length_dropna_titles (g : list Row) :
  length (dropna (map title g)) = length (filter (fun r => title r <> None) g)
  /\ (length (dropna (map title g)) <= length g)%nat.
Proof.
  induction g as [|r g [IH1 IH2]]; [split; reflexivity|].
  rewrite map_cons, filter_cons. destruct (title r) as [t|] eqn:E.
  - change (dropna (Some t :: map title g)) with (t :: dropna (map title g)).
    destruct (decide (Some t <> None)) as [_|Hn]; [|exfalso; apply Hn; discriminate].
    simpl. split; lia.
  - change (dropna (None :: map title g)) with (dropna (map title g)).
    destruct (decide (None <> None (A:=string))) as [Hn|_]; [congruence|].
    simpl. split; lia.
Qed.

Lemma count_with_data (g : list Row) :
  sum_list (map (fun r => if has_country_data r then 1%nat else 0%nat) g)
  = length (filter (fun r => has_country_data r) g).
Proof.
  induction g as [|r g IH]; [reflexivity|].
  rewrite filter_cons. simpl. rewrite IH. destruct (has_country_data r).
  - destruct (decide (Is_true true)) as [_|Hn]; [reflexivity | exfalso; apply Hn; exact I].
  - destruct (decide (Is_true false)) as [[]|_]. reflexivity.
Qed.

(** X13. In the table of films with country data, the entry of a year
    counts the rows of the year that have a title and those that have
    country data; neither exceeds the number of rows of the year. The
    second count, when it is not 0, is the number of rows that the mean of
    line 262 divides by for that year; when it is 0 that table has no entry
    for the year. If every row of the year has a title, the second count is
    at most the first, which is then positive. *)
Theorem movies_with_country_data_counts (filtered : list Row) (y : Z) (t m : nat) :
  (y, (t, m)) ∈ movies_with_country_data filtered ->
  t = length (filter (fun r => title r <> None) (filter (fun r => year r = y) filtered))
  /\ m = length (filter (fun r => has_country_data r) (filter (fun r => year r = y) filtered))
  /\ (t <= length (filter (fun r => year r = y) filtered))%nat
  /\ (m <= length (filter (fun r => year r = y) filtered))%nat
  /\ ((0 < m)%nat <-> exists s, (y, (s, m)) ∈ avg_countries_with_data_parts filtered)
  /\ ((forall r, r ∈ filtered -> year r = y -> title r <> None) -> (m <= t)%nat /\ (0 < t)%nat).
Proof.
  unfold movies_with_country_data. intros H.
  apply elem_of_map in H as ([y0 g] & E & Hg). simpl in E. inversion E; subst y0 t m; clear E.
  pose proof (group_nonempty_length _ _ _ Hg) as Hpos.
  apply elem_of_groupby_year in Hg as ((r0 & Hr0 & Hy0) & ->).
  set (g := filter (fun r => year r = y) filtered) in *.
  destruct (length_dropna_titles g) as [Ht Htle].
  rewrite count_with_data.
  split; [exact Ht|]. split; [reflexivity|]. split; [exact Htle|].
  split; [apply length_filter|].
  split.
  - unfold avg_countries_with_data_parts, num_countries_by_year. split.
    + intros Hm. exists (sum_list (map num_countries (filter (fun r => has_country_data r) g))).
      apply elem_of_map.
      exists (y, filter (fun r => year r = y) (filter (fun r => has_country_data r) filtered)).
      split.
      * simpl. unfold mean_parts. rewrite filter_year_with_data, length_map. reflexivity.
      * apply elem_of_groupby_year. split; [|reflexivity].
        destruct (filter (fun r => has_country_data r) g) as [|r t] eqn:E; [simpl in Hm; lia|].
        assert (Hr : r ∈ filter (fun r => has_country_data r) g) by (rewrite E; left).
        apply list_elem_of_filter in Hr as [Hd Hr].
        apply list_elem_of_filter in Hr as [Hy Hr].
        exists r. split; [apply list_elem_of_filter; auto | exact Hy].
    + intros (s & Hs). apply elem_of_map in Hs as ([y0 g'] & E & Hg').
      simpl in E. unfold mean_parts in E. inversion E; subst y0.
      rewrite length_map in *.
      match goal with H : _ = length g' |- _ => rewrite H end.
      eapply group_nonempty_length, Hg'.
  - intros Hall. rewrite Ht.
    rewrite (filter_all (fun r => title r <> None) g).
    + split; [apply length_filter | exact Hpos].
    + intros r Hr. apply list_elem_of_filter in Hr as [Hy Hr]. apply Hall; auto.
Qed.

Lemma movies_with_country_data_counts_witness :
  (2020%Z, (0%nat, 2%nat)) ∈ movies_with_country_data example_rows
  /\ exists s, (2020%Z, (s, 2%nat)) ∈ avg_countries_with_data_parts example_rows.
Proof.
  assert (H : (2020%Z, (0%nat, 2%nat)) ∈ movies_with_country_data example_rows)
    by (vm_compute; left).
  split; [exact H|].
  apply (proj1 (proj1 (proj2 (proj2 (proj2 (proj2
           (movies_with_country_data_counts example_rows _ _ _ H))))))).
  lia.
Defined.

(** ** The temporal table *)

Lemma df_line_years (filtered : list Row) (selected : list string) :
  map fst (df_line filtered selected) = group_keys filtered.
Proof.
  unfold df_line, groupby_year. rewrite !map_map. simpl. apply map_id.
Qed.

Lemma sum_flags_le_length (c : string) (g : list Row) :
  (sum_list (map (country_flag c) g) <= length g)%nat.
Proof.
  induction g as [|r g IH]; simpl; [lia|].
  unfold country_flag at 1. destruct (bool_decide _); lia.
Qed.

(** X14. The temporal table has one row per year that occurs among the
    filtered rows, in increasing order of the year, and one cell per
    selected country; a cell is at most the number of films of the year.
    Added up over the years, the cells of a country give the sum of its flag
    over all filtered rows. *)
Theorem df_line_table (filtered : list Row) (selected : list string) :
  increasing (map fst (df_line filtered selected))
  /\ (forall y, y ∈ map fst (df_line filtered selected)
                <-> exists r, r ∈ filtered /\ year r = y)
  /\ (forall y counts, (y, counts) ∈ df_line filtered selected ->
        length counts = length selected
        /\ Forall (fun n => (n <= length (filter (fun r => year r = y) filtered))%nat) counts)
  /\ (forall j c, selected !! j = Some c ->
        sum_list (map (fun line => default 0%nat (snd line !! j)) (df_line filtered selected))
        = sum_list (map (country_flag c) filtered)).
Proof.
  split; [rewrite df_line_years; apply group_keys_increasing|].
  split; [intros y; rewrite df_line_years; apply elem_of_group_keys|].
  split.
  - intros y counts H. unfold df_line in H.
    apply elem_of_map in H as ([y0 g] & E & Hg). simpl in E. inversion E; subst y0 counts.
    split; [apply length_map|].
    apply elem_of_groupby_year in Hg as (_ & ->).
    rewrite Forall_forall. intros n Hn. apply elem_of_map in Hn as (c & -> & _).
    apply sum_flags_le_length.
  - intros j c Hj. rewrite <- (sum_over_groups (country_flag c) filtered).
    unfold df_line. rewrite map_map. apply sum_list_map_eq. intros g _. simpl.
    rewrite lookup_map, Hj. reflexivity.
Qed.

Lemma df_line_table_witness :
  ["France"; "Usa"] !! 1%nat = Some "Usa"
  /\ sum_list (map (fun line => default 0%nat (snd line !! 1%nat))
                   (df_line example_rows ["France"; "Usa"]))
     = sum_list (map (country_flag "Usa") example_rows).
Proof.
  split; [reflexivity|].
  exact (proj2 (proj2 (proj2 (df_line_table example_rows ["France"; "Usa"])))
           1%nat "Usa" eq_refl).
Defined.



(** ** Ties in a ranking of producers *)

Lemma insert_desc_stable (k : nat) (x : string * nat) (l : list (string * nat)) :
  filter (fun e => snd e = k) (insert_desc x l) = filter (fun e => snd e = k) (x :: l).
Proof.
  induction l as [|y l IH]; simpl; [reflexivity|].
  destruct (Nat.leb_spec (snd y) (snd x)) as [Hle|Hgt]; [reflexivity|].
  rewrite filter_cons, IH, !filter_cons.
  destruct (decide (snd y = k)) as [Ey|Ey]; [|reflexivity].
  destruct (decide (snd x = k)) as [Ex|Ex]; [lia | reflexivity].
Qed.

Lemma sort_desc_stable (k : nat) (l : list (string * nat)) :
  filter (fun e => snd e = k) (sort_desc l) = filter (fun e => snd e = k) l.
Proof.
  unfold sort_desc. induction l as [|x l IH]; simpl; [reflexivity|].
  rewrite insert_desc_stable, !filter_cons, IH. reflexivity.
Qed.

Lemma Counter_keys_foldl (l : list string) (c : list (string * nat)) :
  map fst (foldl (fun c k => counter_incr k c) c l)
  = foldl (fun acc x => if bool_decide (x ∈ acc) then acc else acc ++ [x]) (map fst c) l.
Proof.
  revert c. induction l as [|x l IH]; intros c; simpl; [reflexivity|].
  rewrite IH, counter_incr_keys. reflexivity.
Qed.

Lemma Counter_keys (l : list string) : map fst (Counter l) = first_occurrences l.
Proof. unfold Counter, first_occurrences. apply (Counter_keys_foldl l []). Qed.

Lemma map_fst_filter_keys (P : string -> Prop) `{!forall p, Decision (P p)}
    (c : list (string * nat)) :
  map fst (filter (fun e => P (fst e)) c) = filter P (map fst c).
Proof.
  induction c as [|e c IH]; [reflexivity|].
  rewrite map_cons, !filter_cons. destruct (decide (P (fst e))); simpl; rewrite IH; reflexivity.
Qed.

(** X16. [most_common] breaks ties by the order of first occurrence: the
    producers of the full ranking that have a given count appear in the
    order in which their names are first met in the rows, and the ranking
    returned for [n] is the first [n] entries of the full one. *)
Theorem get_top_productoras_ties (src : producer_source) (l : list Row) (country : string)
    (n k : nat) :
  map fst (filter (fun e => snd e = k)
                  (sort_desc (Counter (flagged_producers src l country))))
  = filter (fun p => occurrences p (flagged_producers src l country) = k)
           (first_occurrences (flagged_producers src l country))
  /\ get_top_productoras src l country n
     = take n (sort_desc (Counter (flagged_producers src l country))).
Proof.
  split; [|reflexivity].
  set (names := flagged_producers src l country).
  rewrite sort_desc_stable, <- Counter_keys.
  rewrite <- (map_fst_filter_keys (fun p => occurrences p names = k)).
  f_equal. apply filter_ext_elem. intros [p m] Hin. simpl.
  apply (elem_of_counter p m _ (Counter_wf names)) in Hin as [Hm _].
  rewrite counter_get_Counter in Hm. rewrite Hm. tauto.
Qed.
